(** * splunk_csv_importer: a CSV file turned into a Splunk lookup

    A shallow embedding of [splunk_csv_importer.py].  The script reads a CSV
    file column by column, snapshots the target lookup when it holds data,
    builds one SPL query out of a string template and submits it through
    the Splunk SDK's one-shot search.

    What belongs to the script is modelled as it is written: the loops, the
    dictionaries with their insertion order, the f-strings, the [try] /
    [except] around the search.  What belongs to its collaborators is
    modelled at their interface:
    - the remote search head is a state machine [serve] that answers a
      query with the entries its result decoder yields, or raises;
    - a file is the list of records [csv.reader] yields for it;
      [csv.DictReader], which the script drives, is modelled on top;
    - the wall clock is a reading [clock]. *)

From Stdlib Require Import String Ascii List Arith Lia DecimalString.
From stdpp Require Import base list.
Import ListNotations.

Local Open Scope string_scope.
Local Open Scope list_scope.

(** String concatenation is written [+:+]; [++] is kept for lists. *)
Infix "+:+" := String.append (at level 60, right associativity).

#[global] Instance string_eq_dec : EqDecision string := String.string_dec.

(** ** Python values the script manipulates *)

(** Exceptions the script can meet.  [exit(1)] raises [SystemExit 1]. *)
Inductive exn :=
| AuthenticationError
| HTTPError (msg : string)
| OSError (path : string)
| TypeError
| ValueError
| KeyError
| IndexError
| AttributeError
| SystemExit (code : nat).

(** A computation without effects that may raise. *)
Definition res (A : Type) : Type := exn + A.

Definition res_bind {A B} (m : res A) (k : A -> res B) : res B :=
  match m with
  | inl e => inl e
  | inr a => k a
  end.

Declare Scope res_scope.
Delimit Scope res_scope with res.
Notation "x <- m ;; k" := (res_bind m (fun x => k))
  (at level 100, m at next level, right associativity) : res_scope.

(** [for x in l: s = body x s], stopping at the first exception. *)
Fixpoint for_each {A S} (body : A -> S -> res S) (l : list A) (s : S) : res S :=
  match l with
  | [] => inr s
  | x :: l' => res_bind (body x s) (for_each body l')
  end.

(** *** Strings *)

Module PyStr.

(** [s.split(sep)] for a one-character separator: never empty. *)
Fixpoint split (sep : ascii) (s : string) : list string :=
  match s with
  | EmptyString => [EmptyString]
  | String c s' =>
      if Ascii.eqb c sep then EmptyString :: split sep s'
      else match split sep s' with
           | [] => [String c EmptyString]
           | w :: ws => String c w :: ws
           end
  end.

(** [sep.join(l)] over strings. *)
Fixpoint join (sep : string) (l : list string) : string :=
  match l with
  | [] => ""
  | [x] => x
  | x :: l' => x +:+ sep +:+ join sep l'
  end.

(** [s[:n]] *)
Fixpoint slice_to (n : nat) (s : string) : string :=
  match n, s with
  | S n', String c s' => String c (slice_to n' s')
  | _, _ => ""
  end.

(** [str(n)] for a natural number. *)
Definition of_nat (n : nat) : string :=
  NilZero.string_of_uint (Nat.to_uint n).

(** [n] in decimal, zero-padded on the left to [width] digits. *)
Fixpoint zeros (k : nat) : string :=
  match k with
  | O => ""
  | S k' => String "0" (zeros k')
  end.

Definition zfill (width n : nat) : string :=
  let d := of_nat n in
  zeros (width - String.length d) +:+ d.

(** Whether the character [c] occurs in [s]. *)
Fixpoint mem (c : ascii) (s : string) : bool :=
  match s with
  | EmptyString => false
  | String c' s' => Ascii.eqb c' c || mem c s'
  end.

(** [template.format(...)] with keyword arguments [kw]: replacement fields named by keyword, as the
    script's template has them (no conversions, no format specs, no
    doubled braces).  [field] is [Some name] while a field is being
    read.  Substituted values are not scanned again. *)
Fixpoint format_go (t : string) (kw : list (string * string))
    (field : option string) : res string :=
  match t, field with
  | EmptyString, None => inr ""
  | EmptyString, Some _ => inl ValueError
  | String c t', None =>
      if Ascii.eqb c "{" then format_go t' kw (Some "")
      else if Ascii.eqb c "}" then inl ValueError
      else res_bind (format_go t' kw None) (fun r => inr (String c r))
  | String c t', Some name =>
      if Ascii.eqb c "}" then
        match find (fun p => String.eqb (fst p) name) kw with
        | Some (_, v) => res_bind (format_go t' kw None) (fun r => inr (v +:+ r))
        | None => inl KeyError
        end
      else format_go t' kw (Some (name +:+ String c ""))
  end.

Definition format (t : string) (kw : list (string * string)) : res string :=
  format_go t kw None.

End PyStr.

(** *** The clock *)

Record datetime := mkDatetime {
  year : nat; month : nat; day : nat;
  hour : nat; minute : nat; second : nat
}.

(** One [strftime] directive.  [%Y] is the year in four digits, which is
    the year as it is for the years a clock reads. *)
Definition directive (d : ascii) (dt : datetime) : string :=
  if Ascii.eqb d "Y" then PyStr.zfill 4 (year dt)
  else if Ascii.eqb d "m" then PyStr.zfill 2 (month dt)
  else if Ascii.eqb d "d" then PyStr.zfill 2 (day dt)
  else if Ascii.eqb d "H" then PyStr.zfill 2 (hour dt)
  else if Ascii.eqb d "M" then PyStr.zfill 2 (minute dt)
  else if Ascii.eqb d "S" then PyStr.zfill 2 (second dt)
  else String "%" (String d "").

(** [dt.strftime(fmt)] for the directives above; other text is copied. *)
Fixpoint strftime (fmt : string) (dt : datetime) : string :=
  match fmt with
  | EmptyString => ""
  | String c rest =>
      if Ascii.eqb c "%" then
        match rest with
        | String d rest' => directive d dt +:+ strftime rest' dt
        | EmptyString => "%"
        end
      else String c (strftime rest dt)
  end.

(** *** Dictionaries

    A Python [dict] keeps its keys in insertion order, and the script
    depends on it ([datas.items()] gives the columns in header order):
    a dictionary is the list of its items, without repeated keys. *)

Module PyDict.
Section Dict.
Context {K V : Type} `{EqDecision K}.

(** [d.get(k)] *)
Fixpoint get (k : K) (d : list (K * V)) : option V :=
  match d with
  | [] => None
  | (k', v) :: d' => if decide (k' = k) then Some v else get k d'
  end.

(** [d[k]] *)
Definition getitem (k : K) (d : list (K * V)) : res V :=
  match get k d with
  | Some v => inr v
  | None => inl KeyError
  end.

(** [d[k] = v]: a key that is present keeps its place, a new one goes
    last. *)
Fixpoint set (k : K) (v : V) (d : list (K * V)) : list (K * V) :=
  match d with
  | [] => [(k, v)]
  | (k', v') :: d' =>
      if decide (k' = k) then (k', v) :: d' else (k', v') :: set k v d'
  end.

Definition keys (d : list (K * V)) : list K := map fst d.

(** [dict(pairs)] *)
Definition of_pairs (pairs : list (K * V)) : list (K * V) :=
  fold_left (fun d p => set (fst p) (snd p) d) pairs [].

End Dict.
End PyDict.

(** *** csv.DictReader

    A row of the reader maps each field name to the field of that row;
    a short row is completed with [None] ([restval]), the surplus of a long
    one is kept as a list under the key [None] ([restkey]). *)

Inductive cell :=
| CStr (s : string)
| CNone
| CRest (l : list string).

Definition rowdict := list (option string * cell).

Module DictReader.

Record t := mk {
  fieldnames : option (list string);   (* [None]: the file has no record *)
  rows : list rowdict
}.

Definition is_blank (row : list string) : bool :=
  match row with [] => true | _ => false end.

(** What [__next__] builds out of one record. *)
Definition next_row (names row : list string) : rowdict :=
  let d := PyDict.of_pairs
             (combine (map Some names) (map CStr row)) in
  let lf := length names in
  let lr := length row in
  if Nat.ltb lf lr then PyDict.set None (CRest (drop lf row)) d
  else if Nat.ltb lr lf then
    fold_left (fun d key => PyDict.set (Some key) CNone d) (drop lr names) d
  else d.

(** The first record names the fields; blank records after it are
    skipped. *)
Definition read (records : list (list string)) : t :=
  match records with
  | [] => mk None []
  | names :: rest =>
      mk (Some names)
         (map (next_row names) (List.filter (fun r => negb (is_blank r)) rest))
  end.

End DictReader.

(** A column table: column name to the cells read for it. *)
Definition table := list (string * list cell).

(** The body of the inner loop of [csv_to_dict]:
    [result_dict[column].append(row[column])]. *)
Definition append_cell (row : rowdict) (column : string) (result_dict : table)
  : res table :=
  res_bind (PyDict.getitem column result_dict) (fun l =>
  res_bind (PyDict.getitem (Some column) row) (fun v =>
  inr (PyDict.set column (l ++ [v]) result_dict))).

(** The dictionary [csv_to_dict] builds from a reader. *)
Definition csv_columns (reader : DictReader.t) : res table :=
  match DictReader.fieldnames reader with
  | None => inl TypeError
  | Some names =>
      let result_dict := fold_left (fun d column => PyDict.set column [] d) names [] in
      for_each (fun row => for_each (append_cell row) names)
               (DictReader.rows reader) result_dict
  end.

(** ** The collaborators *)

(** What [results.JSONResultsReader] yields: result rows, which are
    dictionaries, and diagnostic messages, which are not. *)
Inductive entry :=
| Row (fields : list (string * string))
| Message (kind text : string).

Definition isinstance_dict (e : entry) : bool :=
  match e with
  | Row _ => true
  | Message _ _ => false
  end.

(** The answer of the search head to one query. *)
Inductive response :=
| Results (entries : list entry)
| AuthFailed
| Failed (msg : string).

(** What a run does to the outside, in the order it does it. *)
Inductive event :=
| EQuery (spl : string) (r : response)
| EOpen (path : string) (found : bool).

(** The value of [result[0].get('count', 0)]: a field of the row, or the
    integer default. *)
Inductive pyval :=
| PStr (s : string)
| PInt (n : nat).

Definition str_of (v : pyval) : string :=
  match v with
  | PStr s => s
  | PInt n => PyStr.of_nat n
  end.

Definition entry_get (e : entry) (key : string) (default : pyval) : res pyval :=
  match e with
  | Row fields =>
      inr (match PyDict.get key fields with
           | Some s => PStr s
           | None => default
           end)
  | Message _ _ => inl AttributeError
  end.

(** Line feed and double quote, which a literal cannot hold. *)
Definition LF : string := String "010"%char "".
Definition DQ : string := String "034"%char "".

Inductive outcome (A : Type) :=
| Ret (a : A)
| Raise (e : exn).
Arguments Ret {A} a.
Arguments Raise {A} e.

(** The exit status of the process that ends with this outcome. *)
Definition exit_status {A} (o : outcome A) : nat :=
  match o with
  | Ret _ => 0
  | Raise (SystemExit code) => code
  | Raise _ => 1
  end.

Section Script.

(** The search head: its state and how it answers. *)
Context {Remote : Type}.
Variable serve : Remote -> string -> response * Remote.

Record World := mkWorld {
  remote : Remote;
  clock : datetime;                               (* [datetime.now()] *)
  files : string -> option (list (list string));  (* records of a file *)
  stdout : list string;                           (* lines printed *)
  log : list event
}.

(** The world a process starts in. *)
Definition boot (r : Remote) (now : datetime)
    (fs : string -> option (list (list string))) : World :=
  mkWorld r now fs [] [].

Definition M (A : Type) : Type := World -> outcome A * World.

Definition ret {A} (a : A) : M A := fun w => (Ret a, w).

Definition raise {A} (e : exn) : M A := fun w => (Raise e, w).

Definition bind {A B} (m : M A) (k : A -> M B) : M B := fun w =>
  match m w with
  | (Ret a, w') => k a w'
  | (Raise e, w') => (Raise e, w')
  end.

Definition lift {A} (r : res A) : M A :=
  match r with
  | inl e => raise e
  | inr a => ret a
  end.

(** [try: body except ...: handler]; [handler e = None] when no clause
    matches [e]. *)
Definition try_except {A} (body : M A) (handler : exn -> option (M A)) : M A :=
  fun w =>
    match body w with
    | (Ret a, w') => (Ret a, w')
    | (Raise e, w') =>
        match handler e with
        | Some h => h w'
        | None => (Raise e, w')
        end
    end.

Definition print (line : string) : M unit := fun w =>
  (Ret tt, mkWorld (remote w) (clock w) (files w) (stdout w ++ [line]) (log w)).

Definition record (e : event) (w : World) : World :=
  mkWorld (remote w) (clock w) (files w) (stdout w) (log w ++ [e]).

Definition now : M datetime := fun w => (Ret (clock w), w).

(** [exit(code)] *)
Definition exit {A} (code : nat) : M A := raise (SystemExit code).

(** [client.connect(...)], [service.jobs.oneshot(...)] and the reading of
    the results: one exchange with the search head. *)
Definition oneshot (spl_query : string) : M (list entry) := fun w =>
  let (r, remote') := serve (remote w) spl_query in
  let w' := record (EQuery spl_query r)
              (mkWorld remote' (clock w) (files w) (stdout w) (log w)) in
  match r with
  | Results entries => (Ret entries, w')
  | AuthFailed => (Raise AuthenticationError, w')
  | Failed msg => (Raise (HTTPError msg), w')
  end.

(** [open(path)] followed by [csv.reader] over the file. *)
Definition open_csv (path : string) : M (list (list string)) := fun w =>
  match files w path with
  | Some records => (Ret records, record (EOpen path true) w)
  | None => (Raise (OSError path), record (EOpen path false) w)
  end.

Declare Scope script_scope.
Delimit Scope script_scope with script.
Notation "x <- m ;; k" := (bind m (fun x => k))
  (at level 100, m at next level, right associativity) : script_scope.
Notation "m ;; k" := (bind m (fun _ => k))
  (at level 100, right associativity) : script_scope.
Local Open Scope script_scope.

(** ** The script *)

Definition csv_to_dict (csv_file_path : string) : M table :=
  print ("Reading CSV file: " +:+ csv_file_path) ;;
  records <- open_csv csv_file_path ;;
  result_dict <- lift (csv_columns (DictReader.read records)) ;;
  print ("CSV file read successfully: " +:+ PyStr.of_nat (length result_dict)
         +:+ " columns found.") ;;
  ret result_dict.

Definition auth_diagnostic : string :=
  "[ERROR] Authentication failed! Please check your .env file and ensure that the SPLUNK_HOST, SPLUNK_PORT, and SPLUNK_TOKEN are correct.".

Definition oneshot_search (spl_query : string) : M (list entry) :=
  print ("Executing search query: " +:+ PyStr.slice_to 50 spl_query +:+ "...") ;;
  try_except
    (reader <- oneshot spl_query ;;
     let search_results := List.filter isinstance_dict reader in
     print ("Search query executed successfully, "
            +:+ PyStr.of_nat (length search_results) +:+ " result(s) found.") ;;
     ret search_results)
    (fun e => match e with
              | AuthenticationError => Some (print auth_diagnostic ;; exit 1)
              | _ => None
              end).

(** [lookup_name.split('.')[0]] *)
Definition split_head (lookup_name : string) : res string :=
  match PyStr.split "." lookup_name with
  | [] => inl IndexError
  | base :: _ => inr base
  end.

Definition backup_lookup_name (lookup_name timestamp : string) : res string :=
  res_bind (split_head lookup_name) (fun base =>
  inr (base +:+ "_backup_" +:+ timestamp +:+ ".csv")).

Definition check_query (lookup_name : string) : string :=
  "| inputlookup " +:+ lookup_name +:+ " | head 1".

Definition backup_query (lookup_name backup_name : string) : string :=
  "| inputlookup " +:+ lookup_name +:+ " | outputlookup " +:+ backup_name.

Definition backup_lookup_if_exists (lookup_name : string) : M unit :=
  print ("Checking if lookup '" +:+ lookup_name +:+ "' contains data...") ;;
  results <- oneshot_search (check_query lookup_name) ;;
  match results with
  | _ :: _ =>
      dt <- now ;;
      let timestamp := strftime "%Y%m%d%H%M%S" dt in
      backup_name <- lift (backup_lookup_name lookup_name timestamp) ;;
      oneshot_search (backup_query lookup_name backup_name) ;;
      print ("Backup created for '" +:+ lookup_name +:+ "' as '"
             +:+ backup_name +:+ "'")
  | [] =>
      print ("No data found in '" +:+ lookup_name +:+ "', no backup created.")
  end.

(** The template of one column's fragment, as the triple-quoted literal
    has it: it opens with a line feed and closes with four spaces. *)
Definition SPL_TEMPLATE : string :=
  LF +:+ "    | makeresults"
  +:+ LF +:+ "    | eval " +:+ DQ +:+ "{field}" +:+ DQ +:+ "=" +:+ DQ +:+ "{data}" +:+ DQ
  +:+ LF +:+ "    | makemv delim=" +:+ DQ +:+ "," +:+ DQ +:+ " " +:+ DQ +:+ "{field}" +:+ DQ
  +:+ LF +:+ "    | mvexpand " +:+ DQ +:+ "{field}" +:+ DQ
  +:+ LF +:+ "    ".

(** [','.join(value)]: a cell that is not a string raises [TypeError]. *)
Fixpoint str_cells (value : list cell) : res (list string) :=
  match value with
  | [] => inr []
  | CStr s :: value' => res_bind (str_cells value') (fun l => inr (s :: l))
  | _ :: _ => inl TypeError
  end.

Definition join_cells (sep : string) (value : list cell) : res string :=
  res_bind (str_cells value) (fun l => inr (PyStr.join sep l)).

(** [enumerate(l)] *)
Fixpoint enumerate_from {A} (start : nat) (l : list A) : list (nat * A) :=
  match l with
  | [] => []
  | x :: l' => (start, x) :: enumerate_from (S start) l'
  end.

Definition enumerate {A} (l : list A) : list (nat * A) := enumerate_from 0 l.

(** The body of the loop that builds [spl_parts]. *)
Definition spl_part (item : nat * (string * list cell)) (spl_parts : list string)
  : res (list string) :=
  let '(index, (key, value)) := item in
  res_bind (join_cells "," value) (fun data =>
  res_bind (PyStr.format SPL_TEMPLATE [("field", key); ("data", data)])
    (fun spl_query =>
  if Nat.ltb 0 index
  then inr (spl_parts ++ ["| appendcols [" +:+ spl_query +:+ "]"])
  else inr (spl_parts ++ [spl_query]))).

(** The query [generate_lookup] builds for a column table. *)
Definition build_SPL (datas : table) (lookup_name : string) : res string :=
  res_bind (for_each spl_part (enumerate datas) []) (fun spl_parts =>
  let SPL := PyStr.join LF spl_parts in
  inr (SPL +:+ "| fields - _time | outputlookup " +:+ lookup_name)).

Definition verify_query (lookup_name : string) : string :=
  "| inputlookup " +:+ lookup_name +:+ " | stats count".

Definition generate_lookup (csv_file_path lookup_name : string) : M unit :=
  backup_lookup_if_exists lookup_name ;;
  print ("Generating lookup from CSV data: " +:+ csv_file_path) ;;
  datas <- csv_to_dict csv_file_path ;;
  SPL <- lift (build_SPL datas lookup_name) ;;
  oneshot_search SPL ;;
  print ("Lookup '" +:+ lookup_name +:+ "' created successfully from CSV '"
         +:+ csv_file_path +:+ "'.") ;;
  result <- oneshot_search (verify_query lookup_name) ;;
  match result with
  | first :: _ =>
      row_count <- lift (entry_get first "count" (PInt 0)) ;;
      print ("Lookup '" +:+ lookup_name +:+ "' contains " +:+ str_of row_count
             +:+ " rows.")
  | [] => ret tt
  end.

(** [main], from the call of [generate_lookup] on.  What comes before it,
    [parser.parse_args()], is not modelled: when an argument is missing it
    ends the process with status 2 before anything is printed or
    submitted, and otherwise it hands over the two strings. *)
Definition main (source_file target_lookup_name : string) : M unit :=
  generate_lookup source_file target_lookup_name.

End Script.

Arguments check_query : simpl never.
Arguments backup_query : simpl never.
Arguments verify_query : simpl never.
Arguments auth_diagnostic : simpl never.

(** ** What the specification speaks of *)

(** The timestamp of a clock reading: year, month, day, hour, minute and
    second in decimal, two digits each but four for the year. *)
Definition timestamp_digits (dt : datetime) : string :=
  PyStr.zfill 4 (year dt) +:+ PyStr.zfill 2 (month dt) +:+ PyStr.zfill 2 (day dt)
  +:+ PyStr.zfill 2 (hour dt) +:+ PyStr.zfill 2 (minute dt)
  +:+ PyStr.zfill 2 (second dt).

(** The two lines [oneshot_search] prints around a search that succeeds. *)
Definition executing (spl_query : string) : string :=
  "Executing search query: " +:+ PyStr.slice_to 50 spl_query +:+ "...".

Definition executed (found : nat) : string :=
  "Search query executed successfully, " +:+ PyStr.of_nat found
  +:+ " result(s) found.".

(** The line that reports the row count. *)
Definition count_report (lookup_name count : string) : string :=
  "Lookup '" +:+ lookup_name +:+ "' contains " +:+ count +:+ " rows.".

(** The queries of a log, in order. *)
Fixpoint queries (l : list event) : list string :=
  match l with
  | [] => []
  | EQuery q _ :: l' => q :: queries l'
  | EOpen _ _ :: l' => queries l'
  end.

(** An event that did not raise. *)
Definition succeeded (e : event) : Prop :=
  match e with
  | EQuery _ (Results _) => True
  | EQuery _ _ => False
  | EOpen _ found => found = true
  end.

(** The rows an answer carries once the decoder's other entries are left
    out; an answer that raises carries none. *)
Definition rows_of (r : response) : list entry :=
  match r with
  | Results entries => List.filter isinstance_dict entries
  | _ => []
  end.

(** The fragment of one column: a synthetic row, the joined values
    assigned to the field, the field split at the commas, one row per
    value. *)
Definition fragment (name joined : string) : string :=
  LF +:+ "    | makeresults"
  +:+ LF +:+ "    | eval " +:+ DQ +:+ name +:+ DQ +:+ "=" +:+ DQ +:+ joined +:+ DQ
  +:+ LF +:+ "    | makemv delim=" +:+ DQ +:+ "," +:+ DQ +:+ " " +:+ DQ +:+ name +:+ DQ
  +:+ LF +:+ "    | mvexpand " +:+ DQ +:+ name +:+ DQ
  +:+ LF +:+ "    ".

Definition column_fragment (column : string * list string) : string :=
  fragment (fst column) (PyStr.join "," (snd column)).

Definition appended (column : string * list string) : string :=
  "| appendcols [" +:+ column_fragment column +:+ "]".

(** The query of a table whose first column is [first]: its fragment,
    the fragments of the others appended, the lines joined, and the
    instruction that writes the lookup. *)
Definition composed_SPL (first : string * list string)
    (others : list (string * list string)) (lookup_name : string) : string :=
  PyStr.join LF (column_fragment first :: map appended others)
  +:+ "| fields - _time | outputlookup " +:+ lookup_name.

(** A column table of strings, as the cells the loader stores. *)
Definition cells_of (columns : list (string * list string)) : table :=
  map (fun column => (fst column, map CStr (snd column))) columns.

(** [rs] is what remains of [es] when the entries that are not
    dictionaries are taken out. *)
Inductive dict_subseq : list entry -> list entry -> Prop :=
| ds_nil : dict_subseq [] []
| ds_keep fields es rs :
    dict_subseq es rs -> dict_subseq (Row fields :: es) (Row fields :: rs)
| ds_drop kind text es rs :
    dict_subseq es rs -> dict_subseq (Message kind text :: es) rs.



(** A file whose data records have as many fields as the header. *)
Definition rectangular (names : list string) (rows : list (list string)) : Prop :=
  Forall (fun row => length row = length names) rows.

(** How often a name occurs in the header. *)
Definition occurrences (name : string) (names : list string) : nat :=
  count_occ string_dec names name.

(** Every column of the table has [m] values. *)
Definition equal_row_count (m : nat) (t : table) : Prop :=
  Forall (fun column => length (snd column) = m) t.

(** The table of a header without data: no value in any column. *)
Definition empty_columns (names : list string) : list (string * list string) :=
  map (fun name => (name, [])) names.

(** The parts the query of a table is joined from. *)
Definition parts (columns : list (string * list string)) : list string :=
  match columns with
  | [] => []
  | first :: others => column_fragment first :: map appended others
  end.

(** ** Sample worlds *)

(** The clock reading 2024-01-02T03:04:05. *)
Definition reading : datetime := mkDatetime 2024 1 2 3 4 5.

(** A decoder output with two rows between diagnostic messages. *)
Definition mixed_entries : list entry :=
  [Message "INFO" "search started"; Row [("ip", "a")];
   Message "WARN" "lookup is large"; Row [("ip", "b")]].

(** A search head that answers every query with the same row, of count
    zero, after a message. *)
Definition counts_zero (state : unit) (spl_query : string) : response * unit :=
  (Results [Message "INFO" "done"; Row [("count", "0")]], tt).

(** A search head that holds nothing: no row, whatever the query. *)
Definition holds_nothing (state : unit) (spl_query : string) : response * unit :=
  (Results [], tt).

(** A search head that answers with [mixed_entries]. *)
Definition answers_mixed (state : unit) (spl_query : string) : response * unit :=
  (Results mixed_entries, tt).

(** A search head whose token is refused. *)
Definition refuses_token (state : unit) (spl_query : string) : response * unit :=
  (AuthFailed, tt).

(** A search head whose token is refused from the [n]-th next query on. *)
Definition token_expires (n : nat) (spl_query : string) : response * nat :=
  match n with
  | O => (AuthFailed, O)
  | S n' => (Results [], n')
  end.

(** Three files: a two-by-two table, a header alone, and a header that
    repeats a name. *)
Definition sample_files (path : string) : option (list (list string)) :=
  if String.eqb path "cyber_attacks.csv"
  then Some [["ip"; "tag"]; ["a"; "x"]; ["b"; "y"]]
  else if String.eqb path "header_only.csv"
  then Some [["ip"; "tag"]]
  else if String.eqb path "repeated.csv"
  then Some [["ip"; "tag"; "ip"]; ["a"; "x"; "b"]; ["c"; "y"; "d"]]
  else if String.eqb path "repeated_header_only.csv"
  then Some [["ip"; "ip"]]
  else None.

(** A cell that holds a string. *)
Definition is_str (c : cell) : Prop :=
  match c with
  | CStr _ => True
  | _ => False
  end.

(** ** What the code shows beyond the specification *)

(** [row[i]] as a cell of the reader: the field, or [None] after the end
    of the record. *)
Definition field (row : list string) (i : nat) : cell :=
  match row !! i with
  | Some s => CStr s
  | None => CNone
  end.

(** The records the reader does not skip. *)
Definition data_rows (rows : list (list string)) : list (list string) :=
  List.filter (fun r => negb (DictReader.is_blank r)) rows.

(** What a row of the reader gives for a name. *)
Definition cell_at (names row : list string) (c : string) : cell :=
  default CNone (PyDict.get (Some c) (DictReader.next_row names row)).

(** The file read column by column: the [i]-th name with the [i]-th cell
    of every row. *)
Definition transposed (names : list string) (rows : list (list string)) : table :=
  map (fun item => (snd item, map (fun row => field row (fst item)) rows))
      (enumerate names).

(** The same for a rectangular file, as strings. *)
Definition string_columns (names : list string) (rows : list (list string))
  : list (string * list string) :=
  map (fun item => (snd item, map (fun row => nth (fst item) row "") rows))
      (enumerate names).

(** A table all of whose cells are strings. *)
Definition all_strings (t : table) : Prop :=
  Forall (fun column => Forall is_str (snd column)) t.

Definition first_char (s : string) : option ascii :=
  match s with
  | EmptyString => None
  | String c _ => Some c
  end.

(** The number a string of decimal digits writes. *)
Definition digit_value (c : ascii) : nat := nat_of_ascii c - 48.

Fixpoint digits_value_from (acc : nat) (s : string) : nat :=
  match s with
  | EmptyString => acc
  | String c s' => digits_value_from (10 * acc + digit_value c) s'
  end.

Definition digits_value (s : string) : nat := digits_value_from 0 s.

(** A reading a calendar clock can give, in a year of four digits. *)
Definition calendar_reading (dt : datetime) : Prop :=
  1000 <= year dt < 100 * 100 /\ month dt <= 12 /\ day dt <= 31
  /\ hour dt <= 23 /\ minute dt <= 59 /\ second dt <= 59.

(** The queries of a run that stopped before the lookup was written: the
    check, and the backup write if there was one. *)
Definition stopped_before_generation (target : string) (qs : list string) : Prop :=
  qs = [check_query target]
  \/ exists backup, qs = [check_query target; backup_query target backup].

(** More files: a record too long and one too short, the same file cut
    to the header, and a file without any record. *)
Definition ragged_files (path : string) : option (list (list string)) :=
  if String.eqb path "ragged.csv"
  then Some [["ip"; "tag"]; ["a"; "x"; "extra"]; ["b"]]
  else if String.eqb path "cut.csv"
  then Some [["ip"; "tag"]; ["a"; "x"]; ["b"]]
  else if String.eqb path "empty.csv"
  then Some []
  else None.

(** One second after [reading]. *)
Definition next_reading : datetime := mkDatetime 2024 1 2 3 4 6.

(** A search head that fails on the server side. *)
Definition breaks_down (state : unit) (spl_query : string) : response * unit :=
  (Failed "HTTP 500 Internal Server Error", tt).

(** ** The model at work *)

Example strftime_reading :
  strftime "%Y%m%d%H%M%S" (mkDatetime 2024 1 2 3 4 5) = "20240102030405".
Proof. reflexivity. Qed.

Example csv_columns_two_by_two :
  csv_columns (DictReader.read [["ip"; "tag"]; ["a"; "x"]; []; ["b"; "y"]])
  = inr [("ip", [CStr "a"; CStr "b"]); ("tag", [CStr "x"; CStr "y"])].
Proof. reflexivity. Qed.

Example csv_columns_short_and_long :
  csv_columns (DictReader.read [["ip"; "tag"]; ["a"]; ["b"; "y"; "z"]])
  = inr [("ip", [CStr "a"; CStr "b"]); ("tag", [CNone; CStr "y"])].
Proof. reflexivity. Qed.

Example csv_columns_repeated_name :
  csv_columns (DictReader.read [["ip"; "tag"; "ip"]; ["a"; "x"; "b"]])
  = inr [("ip", [CStr "b"; CStr "b"]); ("tag", [CStr "x"])].
Proof. reflexivity. Qed.

Example split_example :
  PyStr.split "." "a.b.c" = ["a"; "b"; "c"] /\ PyStr.split "." "" = [""].
Proof. split; reflexivity. Qed.

Example end_to_end_queries :
  queries (log (snd (main counts_zero "cyber_attacks.csv" "iocs.csv"
                       (boot tt reading sample_files))))
  = [ "| inputlookup iocs.csv | head 1";
      "| inputlookup iocs.csv | outputlookup iocs_backup_20240102030405.csv";
      composed_SPL ("ip", ["a"; "b"]) [("tag", ["x"; "y"])] "iocs.csv";
      "| inputlookup iocs.csv | stats count" ].
Proof. reflexivity. Qed.

(** ** Strings *)

Lemma append_nil_r (a : string) : a +:+ "" = a.
Proof. induction a as [|x a IH]; simpl; [reflexivity | now rewrite IH]. Qed.

Lemma append_inv_head (a x y : string) : a +:+ x = a +:+ y -> x = y.
Proof.
  induction a as [|c a IH]; simpl; intros H; [assumption | injection H; auto].
Qed.

Lemma length_append (a b : string) :
  String.length (a +:+ b) = String.length a + String.length b.
Proof. induction a as [|c a IH]; simpl; [reflexivity | now rewrite IH]. Qed.

Lemma append_same_length (a b x y : string) :
  String.length a = String.length b -> a +:+ x = b +:+ y -> a = b.
Proof.
  revert b. induction a as [|c a IH]; intros [|d b]; simpl; try discriminate.
  - reflexivity.
  - intros Hl H. injection Hl as Hl. injection H as -> H.
    f_equal. now apply IH.
Qed.

Lemma append_inv_tail (a b t : string) : a +:+ t = b +:+ t -> a = b.
Proof.
  intros H. apply (append_same_length a b t t); [| assumption].
  apply (f_equal String.length) in H.
  rewrite !length_append in H. lia.
Qed.

(** Up to the first separator, [split] copies the string. *)
Lemma split_before sep base rest :
  PyStr.mem sep base = false ->
  PyStr.split sep (base +:+ String sep rest) = base :: PyStr.split sep rest.
Proof.
  induction base as [|c base IH]; simpl; intros Hm.
  - now rewrite Ascii.eqb_refl.
  - apply orb_false_elim in Hm as [Hc Hm].
    rewrite Hc, (IH Hm). reflexivity.
Qed.

Lemma split_without sep s :
  PyStr.mem sep s = false -> PyStr.split sep s = [s].
Proof.
  induction s as [|c s IH]; simpl; intros Hm; [reflexivity |].
  apply orb_false_elim in Hm as [Hc Hm].
  rewrite Hc, (IH Hm). reflexivity.
Qed.

(** Any string is a part without separator, alone or followed by a
    separator and the rest. *)
Lemma first_separator sep s :
  exists base, PyStr.mem sep base = false
    /\ (s = base \/ exists rest, s = base +:+ String sep rest).
Proof.
  induction s as [|c s (base & Hm & Hs)].
  - exists "". split; [reflexivity | now left].
  - destruct (Ascii.eqb c sep) eqn:Hc.
    + apply Ascii.eqb_eq in Hc as ->.
      exists "". split; [reflexivity | right; now exists s].
    + exists (String c base). split; [simpl; now rewrite Hc |].
      destruct Hs as [-> | (rest & ->)]; [now left | right; now exists rest].
Qed.

Lemma strftime_stamp dt : strftime "%Y%m%d%H%M%S" dt = timestamp_digits dt.
Proof.
  unfold timestamp_digits. simpl. unfold directive. simpl.
  now rewrite append_nil_r.
Qed.

(** ** Backup naming *)

Lemma backup_lookup_name_before base rest timestamp :
  PyStr.mem "." base = false ->
  backup_lookup_name (base +:+ "." +:+ rest) timestamp
  = inr (base +:+ "_backup_" +:+ timestamp +:+ ".csv").
Proof.
  intros Hm. unfold backup_lookup_name, split_head.
  change ("." +:+ rest) with (String "." rest).
  now rewrite (split_before _ _ _ Hm).
Qed.

Lemma backup_lookup_name_without name timestamp :
  PyStr.mem "." name = false ->
  backup_lookup_name name timestamp
  = inr (name +:+ "_backup_" +:+ timestamp +:+ ".csv").
Proof.
  intros Hm. unfold backup_lookup_name, split_head.
  now rewrite (split_without _ _ Hm).
Qed.

(** ** The generated query *)

Lemma format_template key data :
  PyStr.format SPL_TEMPLATE [("field", key); ("data", data)]
  = inr (fragment key data).
Proof. reflexivity. Qed.

Lemma str_cells_strings (l : list string) : str_cells (map CStr l) = inr l.
Proof. induction l as [|s l IH]; simpl; [reflexivity | now rewrite IH]. Qed.

Lemma join_cells_strings sep (l : list string) :
  join_cells sep (map CStr l) = inr (PyStr.join sep l).
Proof. unfold join_cells. now rewrite str_cells_strings. Qed.

(** The first pass of the loop adds the bare fragment. *)
Lemma spl_part_first column spl_parts :
  spl_part (0, (fst column, map CStr (snd column))) spl_parts
  = inr (spl_parts ++ [column_fragment column]).
Proof.
  unfold spl_part. rewrite join_cells_strings. cbn [res_bind].
  rewrite format_template. reflexivity.
Qed.

(** Every later pass adds the wrapped fragment. *)
Lemma spl_part_later index column spl_parts :
  spl_part (S index, (fst column, map CStr (snd column))) spl_parts
  = inr (spl_parts ++ [appended column]).
Proof.
  unfold spl_part. rewrite join_cells_strings. cbn [res_bind].
  rewrite format_template. reflexivity.
Qed.

Lemma spl_parts_later columns : forall index spl_parts,
  for_each spl_part (enumerate_from (S index) (cells_of columns)) spl_parts
  = inr (spl_parts ++ map appended columns).
Proof.
  induction columns as [|column columns IH]; intros index spl_parts.
  - simpl. now rewrite app_nil_r.
  - change (cells_of (column :: columns))
      with ((fst column, map CStr (snd column)) :: cells_of columns).
    cbn [enumerate_from for_each].
    rewrite spl_part_later. cbn [res_bind].
    rewrite IH, <- app_assoc. reflexivity.
Qed.

Lemma build_SPL_cells columns lookup_name :
  build_SPL (cells_of columns) lookup_name
  = inr (PyStr.join LF (parts columns)
         +:+ "| fields - _time | outputlookup " +:+ lookup_name).
Proof.
  destruct columns as [|first others]; [reflexivity |].
  unfold build_SPL, enumerate.
  change (cells_of (first :: others))
    with ((fst first, map CStr (snd first)) :: cells_of others).
  cbn [enumerate_from for_each].
  rewrite spl_part_first. cbn [res_bind].
  rewrite spl_parts_later. reflexivity.
Qed.


(** C4. For a column table with at least one column, the query
    [generate_lookup] builds is the fragment of the first column, then for
    each later column in table order its fragment wrapped in
    [| appendcols [...]], these parts joined by line feeds, and at the end
    the one instruction that drops [_time] and writes the lookup. *)
Theorem build_SPL_composes_the_fragments :
  forall first others lookup_name,
    build_SPL (cells_of (first :: others)) lookup_name
    = inr (composed_SPL first others lookup_name).
Proof.
  intros first others lookup_name.
  rewrite build_SPL_cells. reflexivity.
Qed.

(** ** Dictionaries *)

Section DictFacts.

Context {K V : Type} `{EqDecision K}.
Implicit Types (d : list (K * V)) (k : K) (v : V).

Lemma get_set_eq k v d : PyDict.get k (PyDict.set k v d) = Some v.
Proof.
  induction d as [|[k' v'] d IH]; simpl.
  - now rewrite decide_True.
  - destruct (decide (k' = k)) as [-> | Hne]; simpl.
    + now rewrite decide_True.
    + now rewrite decide_False.
Qed.

Lemma get_set_ne k k' v d :
  k <> k' -> PyDict.get k' (PyDict.set k v d) = PyDict.get k' d.
Proof.
  intros Hne. induction d as [|[k0 v0] d IH]; simpl.
  - now rewrite decide_False.
  - destruct (decide (k0 = k)) as [-> | Hk]; simpl.
    + now rewrite !decide_False.
    + now rewrite IH.
Qed.

Lemma keys_set_in k v d :
  k ∈ PyDict.keys d -> PyDict.keys (PyDict.set k v d) = PyDict.keys d.
Proof.
  unfold PyDict.keys. induction d as [|[k' v'] d IH]; simpl; intros Hin.
  - now apply elem_of_nil in Hin.
  - destruct (decide (k' = k)) as [-> | Hne]; simpl; [reflexivity |].
    apply elem_of_cons in Hin as [-> | Hin]; [congruence |].
    now rewrite IH.
Qed.

Lemma keys_set_new k v d :
  k ∉ PyDict.keys d -> PyDict.keys (PyDict.set k v d) = PyDict.keys d ++ [k].
Proof.
  unfold PyDict.keys. induction d as [|[k' v'] d IH]; simpl; intros Hin.
  - reflexivity.
  - apply not_elem_of_cons in Hin as [Hne Hin].
    rewrite decide_False by congruence. simpl. now rewrite IH.
Qed.

Lemma keys_set_self k v d : k ∈ PyDict.keys (PyDict.set k v d).
Proof.
  destruct (decide (k ∈ PyDict.keys d)) as [Hin | Hout].
  - now rewrite keys_set_in.
  - rewrite keys_set_new by assumption. apply elem_of_app. right.
    now apply list_elem_of_singleton.
Qed.

Lemma keys_set_mono k k' v d :
  k ∈ PyDict.keys d -> k ∈ PyDict.keys (PyDict.set k' v d).
Proof.
  intros Hk. destruct (decide (k' ∈ PyDict.keys d)) as [Hin | Hout].
  - now rewrite keys_set_in.
  - rewrite keys_set_new by assumption. apply elem_of_app. now left.
Qed.

Lemma get_is_Some k d : k ∈ PyDict.keys d <-> is_Some (PyDict.get k d).
Proof.
  unfold PyDict.keys. induction d as [|[k' v'] d IH]; simpl.
  - split; [intros Hin; now apply elem_of_nil in Hin | intros [? [=]]].
  - rewrite elem_of_cons, IH.
    destruct (decide (k' = k)) as [-> | Hne]; [split; eauto |].
    split; [intros [-> | ?]; [congruence | assumption] | now right].
Qed.

(** Without repeated keys, an item is what its key gives. *)
Lemma get_item k v d :
  NoDup (PyDict.keys d) -> (k, v) ∈ d -> PyDict.get k d = Some v.
Proof.
  unfold PyDict.keys. induction d as [|[k' v'] d IH]; simpl; intros Hnd Hin.
  - now apply elem_of_nil in Hin.
  - apply NoDup_cons in Hnd as [Hk' Hnd].
    apply elem_of_cons in Hin as [[= -> ->] | Hin].
    + now rewrite decide_True.
    + rewrite decide_False; [now apply IH |].
      intros ->. apply Hk'. apply list_elem_of_fmap. now exists (k, v).
Qed.

Lemma item_of_get k v d : PyDict.get k d = Some v -> (k, v) ∈ d.
Proof.
  induction d as [|[k' v'] d IH]; simpl; [discriminate |].
  destruct (decide (k' = k)) as [-> | Hne].
  - intros [= ->]. apply elem_of_cons. now left.
  - intros Hg. apply elem_of_cons. right. now apply IH.
Qed.

End DictFacts.

(** ** The loader *)

(** The dictionary comprehension: one empty column per distinct name. *)
Lemma comprehension_keys (names : list string) : forall d0 : table,
  NoDup (PyDict.keys d0) ->
  NoDup (PyDict.keys (fold_left (fun d column => PyDict.set column [] d) names d0))
  /\ forall c,
      c ∈ PyDict.keys (fold_left (fun d column => PyDict.set column [] d) names d0)
      <-> c ∈ PyDict.keys d0 \/ c ∈ names.
Proof.
  induction names as [|name names IH]; intros d0 Hnd; simpl.
  - split; [assumption |]. intros c. rewrite elem_of_nil. tauto.
  - destruct (decide (name ∈ PyDict.keys d0)) as [Hin | Hout].
    + destruct (IH (PyDict.set name [] d0)) as [Hnd' Hkeys].
      { now rewrite keys_set_in. }
      split; [assumption |]. intros c. rewrite Hkeys, keys_set_in by assumption.
      rewrite elem_of_cons. split; [tauto |].
      intros [? | [-> | ?]]; tauto.
    + destruct (IH (PyDict.set name [] d0)) as [Hnd' Hkeys].
      { rewrite keys_set_new by assumption. apply NoDup_app.
        split; [assumption |]. split; [| apply NoDup_singleton].
        intros x Hx Hx'. apply list_elem_of_singleton in Hx' as ->. tauto. }
      split; [assumption |]. intros c.
      rewrite Hkeys, keys_set_new by assumption.
      rewrite elem_of_app, list_elem_of_singleton, elem_of_cons. tauto.
Qed.

Lemma comprehension_keys_distinct (names : list string) : forall d0 : table,
  NoDup (PyDict.keys d0 ++ names) ->
  PyDict.keys (fold_left (fun d column => PyDict.set column [] d) names d0)
  = PyDict.keys d0 ++ names.
Proof.
  induction names as [|name names IH]; intros d0 Hnd; simpl.
  - now rewrite app_nil_r.
  - assert (Hout : name ∉ PyDict.keys d0).
    { apply NoDup_app in Hnd as (_ & Hd & _). intros Hin.
      apply (Hd name Hin). apply elem_of_cons. now left. }
    rewrite IH; rewrite keys_set_new by assumption;
      rewrite <- app_assoc; [reflexivity | exact Hnd].
Qed.

Lemma comprehension_values (names : list string) : forall d0 : table,
  (forall c l, PyDict.get c d0 = Some l -> l = []) ->
  forall c l,
    PyDict.get c (fold_left (fun d column => PyDict.set column [] d) names d0)
    = Some l -> l = [].
Proof.
  induction names as [|name names IH]; intros d0 Hd0 c l; simpl.
  - apply Hd0.
  - apply IH. intros c' l'.
    destruct (decide (name = c')) as [-> | Hne].
    + rewrite get_set_eq. congruence.
    + rewrite get_set_ne by assumption. apply Hd0.
Qed.

(** Setting pairs one after the other: a key that is set has a value
    among those set. *)
Lemma fold_set_get {K V} `{EqDecision K} (pairs : list (K * V)) :
  forall d k,
    k ∈ map fst pairs ->
    exists v,
      PyDict.get k (fold_left (fun d p => PyDict.set (fst p) (snd p) d) pairs d)
      = Some v
      /\ v ∈ map snd pairs.
Proof.
  induction pairs as [|[k0 v0] pairs IH]; intros d k Hin; simpl in *.
  - now apply elem_of_nil in Hin.
  - destruct (decide (k ∈ map fst pairs)) as [Hlater | Hnot].
    + destruct (IH (PyDict.set k0 v0 d) k Hlater) as (v & Hv & Hin').
      exists v. split; [assumption | apply elem_of_cons; now right].
    + apply elem_of_cons in Hin as [-> | ?]; [| contradiction].
      exists v0. split; [| apply elem_of_cons; now left].
      clear IH. revert d. induction pairs as [|[k1 v1] pairs IHp]; intros d; simpl.
      * apply get_set_eq.
      * simpl in Hnot. apply not_elem_of_cons in Hnot as [Hne Hnot].
        destruct (decide (k0 = k1)) as [-> | Hk]; [congruence |].
        specialize (IHp Hnot).
        assert (Hswap : forall d', PyDict.get k0
                  (fold_left (fun d p => PyDict.set (fst p) (snd p) d) pairs d')
                  = PyDict.get k0 d').
        { clear -Hnot. induction pairs as [|[k2 v2] pairs IHq]; intros d';
            simpl; [reflexivity |].
          simpl in Hnot. apply not_elem_of_cons in Hnot as [Hne Hnot].
          rewrite (IHq Hnot). apply get_set_ne. congruence. }
        rewrite Hswap, get_set_ne by congruence. apply get_set_eq.
Qed.

Lemma combine_fst {A B} (l : list A) : forall k : list B,
  length k = length l -> map fst (combine l k) = l.
Proof.
  induction l as [|x l IH]; intros [|y k]; simpl; try discriminate;
    [reflexivity |].
  intros [= Hl]. now rewrite IH.
Qed.

Lemma combine_snd {A B} (l : list A) : forall k : list B,
  length k = length l -> map snd (combine l k) = k.
Proof.
  induction l as [|x l IH]; intros [|y k]; simpl; try discriminate;
    [reflexivity |].
  intros [= Hl]. now rewrite IH.
Qed.

(** A record with one field per name gives a string for every name. *)
Lemma next_row_full names row c :
  length row = length names -> c ∈ names ->
  exists s, PyDict.get (Some c) (DictReader.next_row names row) = Some (CStr s).
Proof.
  intros Hlen Hin. unfold DictReader.next_row, PyDict.of_pairs.
  rewrite Hlen, Nat.ltb_irrefl.
  destruct (fold_set_get (combine (map Some names) (map CStr row)) [] (Some c))
    as (v & Hv & Hin').
  - rewrite combine_fst by (now rewrite !length_map).
    apply list_elem_of_fmap. now exists c.
  - rewrite combine_snd in Hin' by (now rewrite !length_map).
    apply list_elem_of_fmap in Hin' as (s & -> & _). now exists s.
Qed.

(** One pass of the inner loop over the names [cs] with the row [d]: the
    keys stay, and the column of a name gains the row's value for it once
    per occurrence of the name in [cs]. *)
Lemma inner_loop (d : rowdict) (cs : list string) : forall T : table,
  (forall c, c ∈ cs -> c ∈ PyDict.keys T) ->
  (forall c, c ∈ cs -> is_Some (PyDict.get (Some c) d)) ->
  exists T',
    for_each (append_cell d) cs T = inr T'
    /\ PyDict.keys T' = PyDict.keys T
    /\ forall c l,
        PyDict.get c T = Some l ->
        PyDict.get c T'
        = Some (l ++ repeat (default CNone (PyDict.get (Some c) d))
                            (occurrences c cs)).
Proof.
  induction cs as [|a cs IH]; intros T Hkeys Hrow; simpl.
  - exists T. repeat split. intros c l ->. now rewrite app_nil_r.
  - assert (Ha : a ∈ a :: cs) by (apply elem_of_cons; now left).
    destruct (proj1 (get_is_Some a T) (Hkeys a Ha)) as [l0 Hl0].
    destruct (Hrow a Ha) as [v Hv].
    unfold append_cell at 1, PyDict.getitem. rewrite Hl0, Hv. cbn [res_bind].
    destruct (IH (PyDict.set a (l0 ++ [v]) T)) as (T' & Hrun & Hk & Hget).
    + intros c Hc. rewrite keys_set_in by auto.
      apply Hkeys, elem_of_cons. now right.
    + intros c Hc. apply Hrow, elem_of_cons. now right.
    + exists T'. split; [exact Hrun |].
      split; [rewrite Hk; apply keys_set_in; auto |].
      intros c l Hl. unfold occurrences. simpl.
      destruct (string_dec a c) as [-> | Hne].
      * rewrite (Hget c (l0 ++ [v])) by apply get_set_eq.
        rewrite Hl in Hl0. injection Hl0 as ->. rewrite Hv. simpl.
        now rewrite <- app_assoc.
      * apply Hget. now rewrite get_set_ne.
Qed.

(** The outer loop: every row adds its values to the columns.  [P] is a
    property of the values the rows give. *)
Lemma outer_loop (P : cell -> Prop) (names : list string) (ds : list rowdict) :
  forall T : table,
  (forall c, c ∈ names -> c ∈ PyDict.keys T) ->
  Forall (fun d => forall c, c ∈ names ->
                   exists v, PyDict.get (Some c) d = Some v /\ P v) ds ->
  exists T',
    for_each (fun row => for_each (append_cell row) names) ds T = inr T'
    /\ PyDict.keys T' = PyDict.keys T
    /\ forall c l,
        c ∈ names ->
        PyDict.get c T = Some l ->
        exists vs : list cell,
          length vs = length ds
          /\ Forall P vs
          /\ PyDict.get c T'
             = Some (l ++ flat_map (fun v => repeat v (occurrences c names)) vs).
Proof.
  induction ds as [|d ds IH]; intros T Hkeys Hds; simpl.
  - exists T. repeat split. intros c l _ ->. exists [].
    repeat split; [constructor | now rewrite app_nil_r].
  - apply Forall_cons in Hds as [Hd Hds].
    destruct (inner_loop d names T Hkeys) as (T1 & Hrun1 & Hk1 & Hget1).
    { intros c Hc. destruct (Hd c Hc) as (v & -> & _). eauto. }
    rewrite Hrun1. cbn [res_bind].
    destruct (IH T1) as (T' & Hrun & Hk & Hget).
    { intros c Hc. rewrite Hk1. auto. }
    { assumption. }
    exists T'. split; [exact Hrun |]. split; [congruence |].
    intros c l Hc Hl.
    destruct (Hd c Hc) as (v & Hv & HP).
    specialize (Hget1 c l Hl). rewrite Hv in Hget1. simpl in Hget1.
    destruct (Hget c _ Hc Hget1) as (vs & Hlen & HPs & Hvs).
    exists (v :: vs). split; [simpl; now rewrite Hlen |].
    split; [now constructor |].
    rewrite Hvs. simpl. now rewrite <- app_assoc.
Qed.

Lemma length_flat_repeat {A} (k : nat) (vs : list A) :
  length (flat_map (fun v => repeat v k) vs) = k * length vs.
Proof.
  induction vs as [|v vs IH]; simpl; [lia |].
  rewrite length_app, repeat_length, IH. lia.
Qed.

Lemma flat_repeat_once {A} (vs : list A) :
  flat_map (fun v => repeat v 1) vs = vs.
Proof. induction vs as [|v vs IH]; simpl; [reflexivity | f_equal; exact IH]. Qed.

Lemma strings_of_cells (vs : list cell) :
  Forall is_str vs -> exists strs : list string, vs = map CStr strs.
Proof.
  induction 1 as [|v vs Hv _ (strs & ->)]; [now exists [] |].
  destruct v as [s | |]; try contradiction. now exists (s :: strs).
Qed.

(** Completing a short record keeps the keys and adds the missing names. *)
Lemma fill_keeps (tail : list string) : forall (d : rowdict) k,
  k ∈ PyDict.keys d ->
  k ∈ PyDict.keys
        (fold_left (fun d key => PyDict.set (Some key) CNone d) tail d).
Proof.
  induction tail as [|key tail IH]; intros d k Hk; simpl; [assumption |].
  now apply IH, keys_set_mono.
Qed.

Lemma fill_sets (tail : list string) : forall (d : rowdict) key,
  key ∈ tail ->
  Some key ∈ PyDict.keys
               (fold_left (fun d key => PyDict.set (Some key) CNone d) tail d).
Proof.
  induction tail as [|key' tail IH]; intros d key Hin; simpl.
  - now apply elem_of_nil in Hin.
  - apply elem_of_cons in Hin as [-> | Hin]; [| now apply IH].
    apply fill_keeps, keys_set_self.
Qed.

Lemma combine_fst_take {A B} (l : list A) : forall k : list B,
  map fst (combine l k) = take (length k) l.
Proof.
  induction l as [|x l IH]; intros [|y k]; simpl; try reflexivity.
  now rewrite IH.
Qed.

(** Whatever its length, a record gives every name a value. *)
Lemma next_row_covers names row c :
  c ∈ names ->
  is_Some (PyDict.get (Some c) (DictReader.next_row names row)).
Proof.
  intros Hin. apply get_is_Some. unfold DictReader.next_row, PyDict.of_pairs.
  assert (Hd : forall c', c' ∈ take (length row) names ->
            Some c' ∈ PyDict.keys
              (fold_left (fun d p => PyDict.set (fst p) (snd p) d)
                 (combine (map Some names) (map CStr row)) [])).
  { intros c' Hc'. apply get_is_Some.
    destruct (fold_set_get (combine (map Some names) (map CStr row)) [] (Some c'))
      as (v & Hv & _); [| eauto].
    rewrite combine_fst_take, length_map, <- fmap_take.
    apply list_elem_of_fmap. now exists c'. }
  revert Hd.
  generalize (fold_left (fun d p => PyDict.set (fst p) (snd p) d)
                (combine (map Some names) (map CStr row)) []).
  intros d Hd.
  destruct (Nat.ltb (length names) (length row)) eqn:Hlong.
  - apply keys_set_mono, Hd. apply Nat.ltb_lt in Hlong.
    rewrite take_ge by lia. assumption.
  - destruct (Nat.ltb (length row) (length names)) eqn:Hshort.
    + rewrite <- (take_drop (length row) names) in Hin.
      apply elem_of_app in Hin as [Hin | Hin].
      * now apply fill_keeps, Hd.
      * now apply fill_sets.
    + apply Hd. apply Nat.ltb_ge in Hlong, Hshort.
      rewrite take_ge by lia. assumption.
Qed.

(** What the loader builds from a file whose data records are not blank:
    a column per distinct name; for each record the column of a name holds
    one value of the record, as many times as the name occurs in the
    header. *)
Lemma csv_columns_loaded (P : cell -> Prop) names rows :
  Forall (fun row =>
            row <> []
            /\ forall c, c ∈ names ->
                 exists v, PyDict.get (Some c) (DictReader.next_row names row)
                           = Some v /\ P v) rows ->
  exists T,
    csv_columns (DictReader.read (names :: rows)) = inr T
    /\ NoDup (PyDict.keys T)
    /\ (forall c, c ∈ PyDict.keys T <-> c ∈ names)
    /\ (NoDup names -> PyDict.keys T = names)
    /\ forall c,
        c ∈ names ->
        exists vs : list cell,
          length vs = length rows
          /\ Forall P vs
          /\ PyDict.get c T
             = Some (flat_map (fun v => repeat v (occurrences c names)) vs).
Proof.
  intros Hrows. unfold csv_columns. simpl.
  set (T0 := fold_left (fun d column => PyDict.set column [] d) names []).
  destruct (comprehension_keys names [] (NoDup_nil_2)) as [Hnd0 Hkeys0].
  fold T0 in Hnd0, Hkeys0.
  assert (Hin0 : forall c, c ∈ PyDict.keys T0 <-> c ∈ names).
  { intros c. rewrite Hkeys0. simpl. rewrite elem_of_nil. tauto. }
  assert (Hkeep : List.filter (fun r => negb (DictReader.is_blank r)) rows = rows).
  { clear -Hrows. induction Hrows as [|row rows [Hrow _] _ IH]; simpl;
      [reflexivity |].
    destruct row; [contradiction | simpl; now rewrite IH]. }
  rewrite Hkeep.
  destruct (outer_loop P names (map (DictReader.next_row names) rows) T0)
    as (T & Hrun & Hk & Hget).
  { intros c Hc. now apply Hin0. }
  { apply Forall_map. eapply Forall_impl; [exact Hrows |].
    intros row [_ Hrow]. exact Hrow. }
  exists T. split; [exact Hrun |].
  split; [now rewrite Hk |].
  split; [intros c; now rewrite Hk |].
  split.
  { intros Hnd. rewrite Hk. subst T0.
    now rewrite comprehension_keys_distinct. }
  intros c Hc.
  destruct (proj1 (get_is_Some c T0) (proj2 (Hin0 c) Hc)) as [l0 Hl0].
  assert (l0 = []) as ->.
  { eapply (comprehension_values names []); [| exact Hl0]. discriminate. }
  destruct (Hget c [] Hc Hl0) as (vs & Hlen & HP & Hvs).
  exists vs. rewrite length_map in Hlen. repeat split; assumption.
Qed.

(** From a rectangular file, the values are strings. *)
Lemma csv_columns_rectangular names rows :
  rectangular names rows ->
  exists T,
    csv_columns (DictReader.read (names :: rows)) = inr T
    /\ NoDup (PyDict.keys T)
    /\ (forall c, c ∈ PyDict.keys T <-> c ∈ names)
    /\ (NoDup names -> PyDict.keys T = names)
    /\ forall c,
        c ∈ names ->
        exists vs : list cell,
          length vs = length rows
          /\ Forall is_str vs
          /\ PyDict.get c T
             = Some (flat_map (fun v => repeat v (occurrences c names)) vs).
Proof.
  intros Hrect.
  destruct (decide (names = [])) as [-> | Hnames].
  - (* a blank header: no column, and the records after it are blank *)
    exists []. unfold csv_columns. simpl.
    assert (Hrows : List.filter (fun r => negb (DictReader.is_blank r)) rows = []).
    { clear -Hrect. induction Hrect as [|row rows Hlen _ IH]; simpl;
        [reflexivity |].
      destruct row; [assumption | discriminate]. }
    rewrite Hrows. simpl. repeat split; try constructor.
    + intros Hc. now apply elem_of_nil in Hc.
    + intros Hc. now apply elem_of_nil in Hc.
    + intros c Hc. now apply elem_of_nil in Hc.
  - apply csv_columns_loaded.
    eapply Forall_impl; [exact Hrect |].
    intros row Hlen. split.
    + intros ->. destruct names; [contradiction | discriminate].
    + intros c Hc. destruct (next_row_full names row c Hlen Hc) as [s Hs].
      exists (CStr s). split; [assumption | exact I].
Qed.

Lemma occurrences_distinct names c :
  NoDup names -> c ∈ names -> occurrences c names = 1.
Proof.
  intros Hnd Hin. unfold occurrences.
  apply NoDup_ListNoDup in Hnd.
  apply (proj1 (NoDup_count_occ' string_dec names) Hnd).
  now apply list_elem_of_In.
Qed.

Lemma occurrences_elem names c : 0 < occurrences c names -> c ∈ names.
Proof.
  unfold occurrences. intros Hpos.
  apply list_elem_of_In, (count_occ_In string_dec). lia.
Qed.

(** One call of [csv_to_dict] on a file that opens and loads. *)
Lemma csv_to_dict_run {Remote} path (w : @World Remote) records T :
  files w path = Some records ->
  csv_columns (DictReader.read records) = inr T ->
  csv_to_dict path w
  = (Ret T,
     mkWorld (remote w) (clock w) (files w)
       (stdout w ++ ["Reading CSV file: " +:+ path;
                     "CSV file read successfully: " +:+ PyStr.of_nat (length T)
                     +:+ " columns found."])
       (log w ++ [EOpen path true])).
Proof.
  intros Hfile Hcsv.
  unfold csv_to_dict, bind, print, open_csv, record, lift, ret. simpl.
  rewrite Hfile, Hcsv. simpl. now rewrite <- app_assoc.
Qed.

(** C5. From a rectangular CSV file with N distinct column names and M
    data rows, [csv_to_dict] returns a table of N entries whose keys are
    the header, in its order, each with M values that are all strings. *)
Theorem csv_to_dict_rectangular_table :
  forall {Remote} (w : @World Remote) path names rows,
    files w path = Some (names :: rows) ->
    NoDup names ->
    rectangular names rows ->
    exists T,
      fst (csv_to_dict path w) = Ret T
      /\ length T = length names
      /\ PyDict.keys T = names
      /\ Forall (fun column =>
                  exists strs : list string,
                    snd column = map CStr strs /\ length strs = length rows) T.
Proof.
  intros Remote w path names rows Hfile Hnd Hrect.
  destruct (csv_columns_rectangular names rows Hrect)
    as (T & Hcsv & HndT & Hkeys & Horder & Hcols).
  exists T. rewrite (csv_to_dict_run path w _ T Hfile Hcsv).
  split; [reflexivity |].
  specialize (Horder Hnd).
  split; [rewrite <- Horder at 1; unfold PyDict.keys; now rewrite length_map |].
  split; [assumption |].
  apply Forall_forall. intros [c l] Hin.
  assert (Hc : c ∈ names).
  { apply Hkeys. apply list_elem_of_fmap. now exists (c, l). }
  destruct (Hcols c Hc) as (vs & Hlen & Hstr & Hget).
  rewrite (get_item c l T HndT Hin) in Hget. injection Hget as ->.
  rewrite (occurrences_distinct names c Hnd Hc), flat_repeat_once.
  destruct (strings_of_cells vs Hstr) as (strs & ->).
  exists strs. rewrite length_map in Hlen. now split.
Qed.

(** C10, as the code has it.  When a name occurs k > 1 times in the
    header of a file with M data rows, [csv_to_dict] returns one entry for
    it, whose column holds for each row one value k times, k*M values in
    all, while the column of a name that occurs once holds M values; the
    table has fewer entries than the header has columns, and when M >= 1
    the column of the repeated name does not have M values.  (Blank
    records are no data rows: the reader skips them.) *)
Theorem csv_to_dict_repeated_name :
  forall {Remote} (w : @World Remote) path names rows name k,
    files w path = Some (names :: rows) ->
    Forall (fun row => row <> []) rows ->
    occurrences name names = k ->
    1 < k ->
    exists T,
      fst (csv_to_dict path w) = Ret T
      /\ occurrences name (PyDict.keys T) = 1
      /\ (exists vs : list cell,
            length vs = length rows
            /\ PyDict.get name T = Some (flat_map (fun v => repeat v k) vs))
      /\ (exists column,
            PyDict.get name T = Some column
            /\ length column = k * length rows)
      /\ (forall other,
            occurrences other names = 1 ->
            exists column,
              PyDict.get other T = Some column
              /\ length column = length rows)
      /\ length T < length names
      /\ (0 < length rows -> ~ equal_row_count (length rows) T).
Proof.
  intros Remote w path names rows name k Hfile Hrows Hk Hk1.
  destruct (csv_columns_loaded (fun _ => True) names rows)
    as (T & Hcsv & HndT & Hkeys & _ & Hcols).
  { eapply Forall_impl; [exact Hrows |]. intros row Hrow. split; [assumption |].
    intros c Hc. destruct (next_row_covers names row c Hc) as [v Hv]. eauto. }
  exists T. rewrite (csv_to_dict_run path w _ T Hfile Hcsv).
  split; [reflexivity |].
  assert (Hname : name ∈ names) by (apply occurrences_elem; lia).
  destruct (Hcols name Hname) as (vs & Hlen & _ & Hget). rewrite Hk in Hget.
  assert (Hcolumn : length (flat_map (fun v : cell => repeat v k) vs)
                    = k * length rows)
    by (now rewrite length_flat_repeat, Hlen).
  split; [apply occurrences_distinct; [assumption | now apply Hkeys] |].
  split; [now exists vs |].
  split; [eexists; split; [exact Hget | exact Hcolumn] |].
  split.
  { intros other Hother.
    assert (Hin : other ∈ names) by (apply occurrences_elem; lia).
    destruct (Hcols other Hin) as (vs' & Hlen' & _ & Hget').
    rewrite Hother, flat_repeat_once in Hget'. now exists vs'. }
  split.
  - assert (Hsub : PyDict.keys T ⊆+ names).
    { apply NoDup_submseteq; [assumption |]. intros c. apply Hkeys. }
    pose proof (submseteq_length _ _ Hsub) as Hle.
    unfold PyDict.keys in Hle. rewrite length_map in Hle.
    destruct (decide (length T = length names)) as [Heq | Hne]; [| lia].
    exfalso.
    assert (Hperm : PyDict.keys T ≡ₚ names).
    { apply submseteq_length_Permutation; [assumption |].
      unfold PyDict.keys. rewrite length_map. lia. }
    rewrite Hperm in HndT.
    pose proof (occurrences_distinct names name HndT Hname). lia.
  - intros Hpos Hinv.
    apply item_of_get in Hget.
    pose proof (proj1 (Forall_forall _ _) Hinv _ Hget) as Hm. simpl in Hm.
    rewrite Hcolumn in Hm. nia.
Qed.

(** A header alone gives a column without values for each of its names. *)
Lemma csv_columns_header_only names :
  exists T,
    csv_columns (DictReader.read [names]) = inr T
    /\ (NoDup names -> PyDict.keys T = names)
    /\ Forall (fun column => snd column = []) T
    /\ T = cells_of (empty_columns (PyDict.keys T)).
Proof.
  destruct (csv_columns_loaded (fun _ => True) names [] (Forall_nil_2 _))
    as (T & Hcsv & HndT & Hkeys & Horder & Hcols).
  exists T. split; [assumption |]. split; [assumption |].
  assert (Hempty : forall c l, (c, l) ∈ T -> l = []).
  { intros c l Hin.
    assert (Hc : c ∈ names).
    { apply Hkeys. apply list_elem_of_fmap. now exists (c, l). }
    destruct (Hcols c Hc) as (vs & Hlen & _ & Hget).
    rewrite (get_item c l T HndT Hin) in Hget. injection Hget as ->.
    destruct vs; [reflexivity | discriminate]. }
  split; [apply Forall_forall; intros [c l] Hin; exact (Hempty c l Hin) |].
  clear -Hempty. induction T as [|[c l] T IH]; [reflexivity |].
  unfold cells_of, empty_columns, PyDict.keys in *. simpl. f_equal.
  - f_equal. apply (Hempty c). apply elem_of_cons. now left.
  - apply IH. intros c' l' Hin. apply (Hempty c'). apply elem_of_cons. now right.
Qed.

(** ** The loader, value by value *)

(** Pairs set after a key do not change it when they have other keys. *)
Lemma fold_set_other {K V} `{EqDecision K} (pairs : list (K * V)) :
  forall d k,
    k ∉ map fst pairs ->
    PyDict.get k (fold_left (fun d p => PyDict.set (fst p) (snd p) d) pairs d)
    = PyDict.get k d.
Proof.
  induction pairs as [|[k0 v0] pairs IH]; intros d k Hk; simpl; [reflexivity |].
  simpl in Hk. apply not_elem_of_cons in Hk as [Hne Hk].
  rewrite (IH _ _ Hk). apply get_set_ne. congruence.
Qed.

(** Zipping names and fields: a name gets the field under its last
    occurrence. *)
Lemma zip_last (names : list string) : forall (row : list string) i c s d,
  names !! i = Some c ->
  (forall j, i < j -> names !! j <> Some c) ->
  row !! i = Some s ->
  PyDict.get (Some c)
    (fold_left (fun d p => PyDict.set (fst p) (snd p) d)
       (combine (map Some names) (map CStr row)) d)
  = Some (CStr s).
Proof.
  induction names as [|n names IH]; intros row i c s d Hi Hlast Hs.
  - discriminate.
  - destruct row as [|r row]; [destruct i; discriminate |].
    destruct i as [|i]; simpl in Hi, Hs |- *.
    + injection Hi as ->. injection Hs as ->.
      rewrite fold_set_other; [apply get_set_eq |].
      rewrite combine_fst_take, length_map. intros Hin.
      apply elem_of_take in Hin as (j & Hj & _).
      change (map Some names) with (Some <$> names) in Hj.
      rewrite list_lookup_fmap in Hj.
      destruct (names !! j) as [c'|] eqn:Hc'; [| discriminate].
      injection Hj as ->. apply (Hlast (S j)); [lia | exact Hc'].
    + apply (IH row i c s); [assumption | | assumption].
      intros j Hj. apply (Hlast (S j)). lia.
Qed.

Lemma fill_other (tail : list string) : forall (d : rowdict) k,
  k ∉ map Some tail ->
  PyDict.get k (fold_left (fun d key => PyDict.set (Some key) CNone d) tail d)
  = PyDict.get k d.
Proof.
  induction tail as [|key tail IH]; intros d k Hk; simpl; [reflexivity |].
  simpl in Hk. apply not_elem_of_cons in Hk as [Hne Hk].
  rewrite (IH _ _ Hk). apply get_set_ne. congruence.
Qed.

Lemma fill_none (tail : list string) : forall (d : rowdict) key,
  key ∈ tail ->
  PyDict.get (Some key)
    (fold_left (fun d key => PyDict.set (Some key) CNone d) tail d)
  = Some CNone.
Proof.
  induction tail as [|key' tail IH]; intros d key Hin; simpl.
  - now apply elem_of_nil in Hin.
  - destruct (decide (key ∈ tail)) as [Hlater | Hnot]; [now apply IH |].
    apply elem_of_cons in Hin as [-> | ?]; [| contradiction].
    rewrite fill_other; [apply get_set_eq |].
    intros Hin. apply list_elem_of_fmap in Hin as (c' & [= <-] & Hin).
    contradiction.
Qed.

(** What a row of the reader holds for a name: the field under the last
    header column of that name, [None] when the record ends before it.
    The surplus of a long record is not under any name. *)
Lemma next_row_last names row i c :
  names !! i = Some c ->
  (forall j, i < j -> names !! j <> Some c) ->
  PyDict.get (Some c) (DictReader.next_row names row) = Some (field row i).
Proof.
  intros Hi Hlast. unfold DictReader.next_row, PyDict.of_pairs, field.
  pose proof (lookup_lt_Some _ _ _ Hi) as Hlt.
  destruct (Nat.ltb (length names) (length row)) eqn:Hlong.
  - apply Nat.ltb_lt in Hlong.
    destruct (lookup_lt_is_Some_2 row i) as [s Hs]; [lia |].
    rewrite Hs, get_set_ne by discriminate.
    now apply (zip_last names row i c s).
  - apply Nat.ltb_ge in Hlong.
    destruct (Nat.ltb (length row) (length names)) eqn:Hshort.
    + destruct (row !! i) as [s|] eqn:Hs.
      * rewrite fill_other; [now apply (zip_last names row i c s) |].
        intros Hin. apply list_elem_of_fmap in Hin as (c' & [= <-] & Hin).
        apply list_elem_of_lookup in Hin as (j & Hj).
        rewrite lookup_drop in Hj.
        apply (Hlast (length row + j)); [| exact Hj].
        apply lookup_lt_Some in Hs. lia.
      * apply fill_none. apply list_elem_of_lookup.
        apply lookup_ge_None in Hs.
        exists (i - length row). rewrite lookup_drop.
        now replace (length row + (i - length row)) with i by lia.
    + apply Nat.ltb_ge in Hshort.
      destruct (lookup_lt_is_Some_2 row i) as [s Hs]; [lia |].
      rewrite Hs. now apply (zip_last names row i c s).
Qed.

(** Every name of the header has a last occurrence. *)
Lemma last_occurrence (names : list string) c :
  c ∈ names ->
  exists i, names !! i = Some c /\ forall j, i < j -> names !! j <> Some c.
Proof.
  induction names as [|n names IH]; intros Hin.
  - now apply elem_of_nil in Hin.
  - destruct (decide (c ∈ names)) as [Hlater | Hnot].
    + destruct (IH Hlater) as (i & Hi & Hlast). exists (S i).
      split; [exact Hi |]. intros [|j] Hj; [lia |]. apply Hlast. lia.
    + apply elem_of_cons in Hin as [-> | ?]; [| contradiction].
      exists 0. split; [reflexivity |]. intros [|j] Hj; [lia |].
      simpl. intros Hj'. apply Hnot. apply list_elem_of_lookup. eauto.
Qed.

(** The outer loop, with the values it appends. *)
Lemma outer_loop_values (names : list string) (ds : list rowdict) :
  forall T : table,
  (forall c, c ∈ names -> c ∈ PyDict.keys T) ->
  Forall (fun d => forall c, c ∈ names -> is_Some (PyDict.get (Some c) d)) ds ->
  exists T',
    for_each (fun row => for_each (append_cell row) names) ds T = inr T'
    /\ PyDict.keys T' = PyDict.keys T
    /\ forall c l,
        PyDict.get c T = Some l ->
        PyDict.get c T'
        = Some (l ++ flat_map
                       (fun d => repeat (default CNone (PyDict.get (Some c) d))
                                        (occurrences c names)) ds).
Proof.
  induction ds as [|d ds IH]; intros T Hkeys Hds; simpl.
  - exists T. repeat split. intros c l ->. now rewrite app_nil_r.
  - apply Forall_cons in Hds as [Hd Hds].
    destruct (inner_loop d names T Hkeys Hd) as (T1 & Hrun1 & Hk1 & Hget1).
    rewrite Hrun1. cbn [res_bind].
    destruct (IH T1) as (T' & Hrun & Hk & Hget).
    { intros c Hc. rewrite Hk1. auto. }
    { assumption. }
    exists T'. split; [exact Hrun |]. split; [congruence |].
    intros c l Hl. rewrite (Hget c _ (Hget1 c l Hl)).
    now rewrite <- app_assoc.
Qed.

(** A dictionary is its keys with what they give. *)
Lemma dict_of_gets {V} (T : list (string * V)) (f : string -> V) :
  NoDup (PyDict.keys T) ->
  (forall c, c ∈ PyDict.keys T -> PyDict.get c T = Some (f c)) ->
  T = map (fun c => (c, f c)) (PyDict.keys T).
Proof.
  unfold PyDict.keys. induction T as [|[k v] T IH]; intros Hnd Hget;
    [reflexivity |].
  simpl in *. apply NoDup_cons in Hnd as [Hk Hnd]. f_equal.
  - f_equal. specialize (Hget k (list_elem_of_here _ _)).
    rewrite decide_True in Hget by reflexivity. congruence.
  - apply IH; [assumption |]. intros c Hc.
    specialize (Hget c (list_elem_of_further _ _ _ Hc)).
    rewrite decide_False in Hget; [assumption |]. intros ->. contradiction.
Qed.

Lemma flat_map_map {A B C} (g : A -> B) (f : B -> list C) (l : list A) :
  flat_map f (map g l) = flat_map (fun x => f (g x)) l.
Proof. induction l as [|x l IH]; simpl; [reflexivity | now rewrite IH]. Qed.

(** The table of any file with a header: the keys of the comprehension,
    each with what the data rows give for it, once per occurrence of the
    name. *)
Lemma csv_columns_values names rows :
  csv_columns (DictReader.read (names :: rows))
  = inr (map (fun c =>
                (c, flat_map (fun row => repeat (cell_at names row c)
                                                (occurrences c names))
                             (data_rows rows)))
             (PyDict.keys
                (fold_left (fun d column => PyDict.set column [] d) names
                   ([] : table)))).
Proof.
  unfold csv_columns. simpl. fold (data_rows rows).
  set (T0 := fold_left (fun d column => PyDict.set column [] d) names []).
  destruct (comprehension_keys names [] (NoDup_nil_2)) as [Hnd0 Hkeys0].
  fold T0 in Hnd0, Hkeys0.
  assert (Hin0 : forall c, c ∈ PyDict.keys T0 <-> c ∈ names).
  { intros c. rewrite Hkeys0. simpl. rewrite elem_of_nil. tauto. }
  destruct (outer_loop_values names
              (map (DictReader.next_row names) (data_rows rows)) T0)
    as (T & Hrun & Hk & Hget).
  { intros c Hc. now apply Hin0. }
  { apply Forall_map, Forall_forall. intros row _ c Hc.
    now apply next_row_covers. }
  rewrite Hrun. f_equal. rewrite <- Hk.
  apply dict_of_gets; [now rewrite Hk |].
  intros c Hc. rewrite Hk in Hc.
  destruct (proj1 (get_is_Some c T0) Hc) as [l0 Hl0].
  assert (l0 = []) as ->.
  { eapply (comprehension_values names []); [| exact Hl0]. discriminate. }
  rewrite (Hget c [] Hl0). simpl. now rewrite flat_map_map.
Qed.

Lemma enumerate_from_snd {A} (l : list A) : forall start,
  map snd (enumerate_from start l) = l.
Proof. induction l as [|x l IH]; intros start; simpl; [reflexivity | now rewrite IH]. Qed.

Lemma enumerate_from_lookup {A} (l : list A) : forall start i x,
  In (i, x) (enumerate_from start l) -> start <= i /\ l !! (i - start) = Some x.
Proof.
  induction l as [|y l IH]; intros start i x; simpl; [contradiction |].
  intros [[= <- <-] | Hin].
  - split; [lia |]. now rewrite Nat.sub_diag.
  - destruct (IH _ _ _ Hin) as [Hle Hx]. split; [lia |].
    replace (i - start) with (S (i - S start)) by lia. exact Hx.
Qed.

Lemma get_of_map_keys {V} (f : string -> V) (keys : list string) c :
  c ∈ keys -> PyDict.get c (map (fun c => (c, f c)) keys) = Some (f c).
Proof.
  induction keys as [|k keys IH]; intros Hin; simpl.
  - now apply elem_of_nil in Hin.
  - destruct (decide (k = c)) as [-> | Hne]; [reflexivity |].
    apply elem_of_cons in Hin as [-> | Hin]; [congruence | now apply IH].
Qed.

Lemma column_values names rows c i k :
  names !! i = Some c ->
  (forall j, i < j -> names !! j <> Some c) ->
  flat_map (fun row => repeat (cell_at names row c) k) rows
  = flat_map (fun row => repeat (field row i) k) rows.
Proof.
  intros Hi Hlast. apply flat_map_ext. intros row. unfold cell_at.
  now rewrite (next_row_last names row i c Hi Hlast).
Qed.

Lemma flat_repeat_once_map {A B} (f : A -> B) (l : list A) :
  flat_map (fun x => repeat (f x) 1) l = map f l.
Proof. induction l as [|x l IH]; simpl; [reflexivity | f_equal; exact IH]. Qed.

Lemma csv_columns_transposed names rows :
  NoDup names ->
  csv_columns (DictReader.read (names :: rows))
  = inr (transposed names (data_rows rows)).
Proof.
  intros Hnd. rewrite csv_columns_values. f_equal.
  rewrite comprehension_keys_distinct by exact Hnd. simpl.
  unfold transposed, enumerate.
  rewrite <- (enumerate_from_snd names 0) at 1. rewrite map_map.
  apply map_ext_in. intros [i c] Hin. simpl.
  apply enumerate_from_lookup in Hin as [_ Hi]. rewrite Nat.sub_0_r in Hi.
  f_equal.
  rewrite (occurrences_distinct names c Hnd) by (apply list_elem_of_lookup; eauto).
  rewrite (column_values names _ c i 1 Hi), flat_repeat_once_map; [reflexivity |].
  intros j Hj Hc. pose proof (NoDup_lookup _ _ _ _ Hnd Hi Hc). lia.
Qed.

(** X1. With distinct column names, [csv_to_dict] returns the file read
    column by column, whatever the shape of the records: the i-th entry is
    the i-th name with, for each record that is not blank, its i-th field,
    or [None] when the record is too short; fields after the last name are
    left out. *)
Theorem csv_to_dict_transposes :
  forall {Remote} (w : @World Remote) path names rows,
    files w path = Some (names :: rows) ->
    NoDup names ->
    fst (csv_to_dict path w) = Ret (transposed names (data_rows rows)).
Proof.
  intros Remote w path names rows Hfile Hnd.
  now rewrite (csv_to_dict_run path w _ _ Hfile
                 (csv_columns_transposed names rows Hnd)).
Qed.

(** X2. Whatever the header and the records, the column [csv_to_dict]
    returns for a name holds, for each record that is not blank, the field
    under the last header column of that name ([None] when the record ends
    before it), as many times as the name occurs in the header. *)
Theorem csv_to_dict_repeated_name_takes_last_column :
  forall {Remote} (w : @World Remote) path names rows c i,
    files w path = Some (names :: rows) ->
    names !! i = Some c ->
    (forall j, i < j -> names !! j <> Some c) ->
    exists T,
      fst (csv_to_dict path w) = Ret T
      /\ PyDict.get c T
         = Some (flat_map (fun row => repeat (field row i) (occurrences c names))
                          (data_rows rows)).
Proof.
  intros Remote w path names rows c i Hfile Hi Hlast.
  eexists. rewrite (csv_to_dict_run path w _ _ Hfile (csv_columns_values names rows)).
  split; [reflexivity |].
  rewrite get_of_map_keys.
  - f_equal. now apply column_values.
  - destruct (comprehension_keys names [] (NoDup_nil_2)) as [_ Hkeys].
    apply Hkeys. right. apply list_elem_of_lookup. eauto.
Qed.

Lemma data_rows_take n rows :
  0 < n -> data_rows (map (take n) rows) = map (take n) (data_rows rows).
Proof.
  intros Hn. unfold data_rows. induction rows as [|row rows IH]; simpl;
    [reflexivity |].
  destruct row as [|x row]; simpl.
  - destruct n; [lia | simpl]. exact IH.
  - destruct n; [lia | simpl]. now rewrite IH.
Qed.

Lemma cell_at_take names row c :
  c ∈ names -> cell_at names (take (length names) row) c = cell_at names row c.
Proof.
  intros Hin. destruct (last_occurrence names c Hin) as (i & Hi & Hlast).
  unfold cell_at. rewrite !(next_row_last names _ i c Hi Hlast). simpl.
  unfold field. rewrite lookup_take_lt; [reflexivity |].
  now apply lookup_lt_Some in Hi.
Qed.

(** X3. The fields of a record after the last header column do not
    reach the table: the file gives the same table as the file whose
    records are cut to the length of the header. *)
Theorem csv_to_dict_ignores_surplus_fields :
  forall {Remote} (w : @World Remote) path path' names rows,
    files w path = Some (names :: rows) ->
    files w path' = Some (names :: map (take (length names)) rows) ->
    fst (csv_to_dict path w) = fst (csv_to_dict path' w).
Proof.
  intros Remote w path path' names rows Hfile Hfile'.
  rewrite (csv_to_dict_run path w _ _ Hfile (csv_columns_values names rows)).
  rewrite (csv_to_dict_run path' w _ _ Hfile' (csv_columns_values names _)).
  simpl. f_equal.
  destruct names as [|name names']; [reflexivity |].
  set (names := name :: names') in *.
  apply map_ext_in. intros c Hc. f_equal.
  assert (Hin : c ∈ names).
  { destruct (comprehension_keys names [] (NoDup_nil_2)) as [_ Hkeys].
    apply list_elem_of_In, Hkeys in Hc as [Hc | Hc]; [| exact Hc].
    now apply elem_of_nil in Hc. }
  rewrite data_rows_take by (simpl; lia). rewrite flat_map_map.
  apply flat_map_ext. intros row. f_equal. symmetry. now apply cell_at_take.
Qed.

(** ** When the query can be built *)

Lemma str_cells_cases (value : list cell) :
  (exists strs, value = map CStr strs /\ str_cells value = inr strs)
  \/ (~ Forall is_str value /\ str_cells value = inl TypeError).
Proof.
  induction value as [|v value IH]; [left; now exists [] |].
  destruct v as [s | | l].
  - destruct IH as [(strs & -> & Hs) | [Hnot Hs]].
    + left. exists (s :: strs). split; [reflexivity |]. simpl. now rewrite Hs.
    + right. split; [| simpl; now rewrite Hs].
      intros Hall. apply Hnot. now apply Forall_cons in Hall as [_ ?].
  - right. split; [| reflexivity]. intros Hall.
    now apply Forall_cons in Hall as [? _].
  - right. split; [| reflexivity]. intros Hall.
    now apply Forall_cons in Hall as [? _].
Qed.

Lemma spl_parts_missing_cell (datas : table) : forall start spl_parts,
  ~ all_strings datas ->
  for_each spl_part (enumerate_from start datas) spl_parts = inl TypeError.
Proof.
  induction datas as [|[key value] datas IH]; intros start spl_parts Hnot.
  - exfalso. apply Hnot. constructor.
  - cbn [enumerate_from for_each].
    destruct (str_cells_cases value) as [(strs & -> & Hs) | [Hcell Hs]].
    + assert (Htail : ~ all_strings datas).
      { intros Hall. apply Hnot. constructor; [| exact Hall]. simpl.
        apply Forall_forall. intros c Hc.
        apply list_elem_of_fmap in Hc as (s & -> & _). exact I. }
      destruct start as [|start].
      * rewrite (spl_part_first (key, strs)). cbn [res_bind]. now apply IH.
      * rewrite (spl_part_later start (key, strs)). cbn [res_bind]. now apply IH.
    + unfold spl_part, join_cells. rewrite Hs. reflexivity.
Qed.

Lemma cells_of_strings (datas : table) :
  all_strings datas -> exists columns, datas = cells_of columns.
Proof.
  induction 1 as [|[key value] datas Hvalue _ (columns & ->)]; [now exists [] |].
  destruct (strings_of_cells value Hvalue) as (strs & ->).
  now exists ((key, strs) :: columns).
Qed.

(** X4. Building the query fails on a table exactly when a cell is not a
    string (the [None] of a short record), and then with [TypeError] from
    the join; on a table of strings it never fails. *)
Theorem build_SPL_fails_only_on_missing_cells :
  forall datas lookup_name,
    (all_strings datas -> exists spl, build_SPL datas lookup_name = inr spl)
    /\ (~ all_strings datas -> build_SPL datas lookup_name = inl TypeError).
Proof.
  intros datas lookup_name. split.
  - intros Hall. destruct (cells_of_strings datas Hall) as (columns & ->).
    rewrite build_SPL_cells. eauto.
  - intros Hnot. unfold build_SPL, enumerate.
    now rewrite spl_parts_missing_cell.
Qed.

Lemma append_assoc (a b c : string) : (a +:+ b) +:+ c = a +:+ b +:+ c.
Proof. induction a as [|x a IH]; simpl; [reflexivity | now rewrite IH]. Qed.

Lemma join_comma (before after : list string) (a b : string) :
  PyStr.join "," (before ++ (a +:+ "," +:+ b) :: after)
  = PyStr.join "," (before ++ a :: b :: after).
Proof.
  induction before as [|x before IH].
  - destruct after as [|y after]; [reflexivity |].
    cbn [app PyStr.join]. now rewrite !append_assoc.
  - cbn [app]. destruct before as [|x' before].
    + cbn [app] in *. cbn [PyStr.join] in *. now rewrite IH.
    + cbn [app] in *. cbn [PyStr.join] in *. now rewrite IH.
Qed.

(** X5. A comma inside a value is not told from the separator: a
    column with the value [a,b] gives the same query as the column with
    the two values [a] and [b] in its place. *)
Theorem build_SPL_confuses_comma_with_separator :
  forall pre post name before after a b lookup_name,
    build_SPL (cells_of (pre ++ (name, before ++ (a +:+ "," +:+ b) :: after) :: post))
              lookup_name
    = build_SPL (cells_of (pre ++ (name, before ++ a :: b :: after) :: post))
                lookup_name.
Proof.
  intros pre post name before after a b lookup_name.
  rewrite !build_SPL_cells. do 2 f_equal.
  assert (Hfrag : column_fragment (name, before ++ (a +:+ "," +:+ b) :: after)
                  = column_fragment (name, before ++ a :: b :: after))
    by (unfold column_fragment; cbn [fst snd]; now rewrite join_comma).
  destruct pre as [|first pre]; cbn [app parts]; [now rewrite Hfrag |].
  f_equal. rewrite !map_app. cbn [map]. unfold appended at 2 4.
  now rewrite Hfrag.
Qed.

(** ** Files that cannot be imported *)

Lemma csv_columns_no_record : csv_columns (DictReader.read []) = inl TypeError.
Proof. reflexivity. Qed.


(** The table of a rectangular file holds strings only. *)
Lemma transposed_rectangular names rows :
  rectangular names rows ->
  transposed names (data_rows rows) = cells_of (string_columns names rows).
Proof.
  intros Hrect. unfold transposed, string_columns, cells_of, enumerate.
  rewrite map_map. apply map_ext_in. intros [i c] Hin. simpl. f_equal.
  apply enumerate_from_lookup in Hin as [_ Hi]. rewrite Nat.sub_0_r in Hi.
  apply lookup_lt_Some in Hi.
  assert (Hdata : data_rows rows = rows).
  { clear -Hrect Hi. unfold data_rows.
    induction Hrect as [|row rows Hlen _ IH]; simpl; [reflexivity |].
    destruct row; [simpl in Hlen; lia | simpl; now rewrite IH]. }
  rewrite Hdata, map_map. apply map_ext_in. intros row Hrow.
  apply list_elem_of_In in Hrow.
  pose proof (proj1 (Forall_forall _ _) Hrect row Hrow) as Hlen.
  cbv beta in Hlen. unfold field.
  destruct (lookup_lt_is_Some_2 row i) as [s Hs]; [lia |].
  rewrite Hs. f_equal. symmetry. now apply nth_lookup_Some with (d := "") in Hs.
Qed.

Lemma first_char_line (a b : string) : a = b -> first_char a = first_char b.
Proof. now intros ->. Qed.

(** ** The exceptions of the pure steps *)

Lemma for_each_error {A S} (P : exn -> Prop) (body : A -> S -> res S) :
  (forall x s e, body x s = inl e -> P e) ->
  forall l s e, for_each body l s = inl e -> P e.
Proof.
  intros Hbody. induction l as [|x l IH]; intros s e; simpl; [discriminate |].
  destruct (body x s) as [e' | s'] eqn:Hx; simpl.
  - intros [= <-]. eauto.
  - apply IH.
Qed.

Lemma csv_columns_errors reader e :
  csv_columns reader = inl e -> e = TypeError \/ e = KeyError.
Proof.
  unfold csv_columns. destruct (DictReader.fieldnames reader) as [names|].
  - intros H. right. revert H.
    apply (for_each_error (fun e => e = KeyError)
             (fun row => for_each (append_cell row) names)).
    intros row T e'.
    apply (for_each_error (fun e => e = KeyError) (append_cell row)).
    intros column T' e''.
    unfold append_cell, PyDict.getitem.
    destruct (PyDict.get column T'); simpl; [| now intros [= <-]].
    destruct (PyDict.get (Some column) row); simpl; [discriminate | now intros [= <-]].
  - intros [= <-]. now left.
Qed.

Lemma build_SPL_errors datas lookup_name e :
  build_SPL datas lookup_name = inl e -> e = TypeError.
Proof.
  unfold build_SPL.
  destruct (for_each spl_part (enumerate datas) []) as [e' | spl_parts] eqn:Hloop;
    simpl; [| discriminate].
  intros [= <-].
  apply (for_each_error (fun e => e = TypeError) spl_part)
    with (l := enumerate datas) (s := []); [| exact Hloop].
  intros [index [key value]] spl_parts e''. unfold spl_part, join_cells.
  destruct (str_cells_cases value) as [(strs & -> & ->) | [_ ->]];
    cbn [res_bind].
  - rewrite format_template. cbn [res_bind].
    destruct (Nat.ltb 0 index); discriminate.
  - now intros [= <-].
Qed.

(** ** Runs of the search gateway and of the backup manager *)

Section Runs.

Context {Remote : Type}.
Variable serve : Remote -> string -> response * Remote.

#[local] Arguments String.append : simpl never.
#[local] Arguments strftime : simpl never.
#[local] Arguments backup_lookup_name : simpl never.
#[local] Arguments build_SPL : simpl never.
#[local] Arguments csv_columns : simpl never.
#[local] Arguments DictReader.read : simpl never.
#[local] Opaque csv_columns.
#[local] Arguments PyStr.of_nat : simpl never.

(** One call of [oneshot_search], by the answer of the search head. *)
Lemma oneshot_search_run spl_query (w : @World Remote) :
  oneshot_search serve spl_query w =
  let '(r, remote') := serve (remote w) spl_query in
  let after lines :=
    mkWorld remote' (clock w) (files w)
            (stdout w ++ executing spl_query :: lines)
            (log w ++ [EQuery spl_query r]) in
  match r with
  | Results entries =>
      (Ret (List.filter isinstance_dict entries),
       after [executed (length (List.filter isinstance_dict entries))])
  | AuthFailed => (Raise (SystemExit 1), after [auth_diagnostic])
  | Failed msg => (Raise (HTTPError msg), after [])
  end.
Proof.
  unfold oneshot_search, bind, try_except, print, oneshot, record, executing,
    executed.
  simpl. destruct (serve (remote w) spl_query) as [[entries | | msg] remote'];
    simpl; unfold exit, raise, ret; simpl; rewrite <- ?app_assoc; reflexivity.
Qed.

Lemma backup_lookup_name_total lookup_name timestamp :
  exists base,
    backup_lookup_name lookup_name timestamp
    = inr (base +:+ "_backup_" +:+ timestamp +:+ ".csv")
    /\ PyStr.mem "." base = false
    /\ (lookup_name = base \/ exists rest, lookup_name = base +:+ "." +:+ rest).
Proof.
  destruct (first_separator "." lookup_name) as (base & Hm & Hs).
  exists base. split; [| split; [assumption |]].
  - destruct Hs as [-> | (rest & ->)].
    + now apply backup_lookup_name_without.
    + now apply backup_lookup_name_before.
  - destruct Hs as [-> | (rest & ->)]; [now left | right; now exists rest].
Qed.

Lemma filter_head_dict entries e rows :
  List.filter isinstance_dict entries = e :: rows -> exists fields, e = Row fields.
Proof.
  intros H.
  assert (Hin : In e (List.filter isinstance_dict entries))
    by (rewrite H; now left).
  apply filter_In in Hin as [_ Hd].
  destruct e as [fields | kind text]; [now exists fields | discriminate].
Qed.

(** Symbolic execution of a run [H : prog w = (out, w')]: one case per
    answer of the search head and per outcome of the pure steps, unless
    the context already tells which. *)
Ltac known_or_cases H t cases :=
  first
    [ match goal with
      | E : t = _ |- _ => rewrite E in H
      end
    | cases ].

Ltac run_step H :=
  first
    [ rewrite oneshot_search_run in H
    | progress
        (unfold generate_lookup, main, backup_lookup_if_exists, csv_to_dict,
           bind, print, now, lift, ret, raise, open_csv, record, boot in H;
         simpl in H)
    | match type of H with
      | context [serve ?r ?q] =>
          let E := fresh "Hserve" in
          known_or_cases H (serve r q)
            ltac:(destruct (serve r q) as [[?entries | | ?msg] ?remote'] eqn:E)
      | context [match List.filter isinstance_dict ?es with _ => _ end] =>
          let F := fresh "Hrows" in
          destruct (List.filter isinstance_dict es) eqn:F
      | context [match backup_lookup_name ?n ?t with _ => _ end] =>
          let base := fresh "base" in
          let Hb := fresh "Hname" in
          destruct (backup_lookup_name_total n t) as (base & Hb & _);
          rewrite Hb in H
      | context [match ?fs ?path with Some _ => _ | None => _ end] =>
          let F := fresh "Hfile" in
          known_or_cases H (fs path) ltac:(destruct (fs path) eqn:F)
      | context [csv_columns ?r] =>
          let F := fresh "Hcsv" in
          known_or_cases H (csv_columns r) ltac:(destruct (csv_columns r) eqn:F)
      | context [build_SPL ?d ?n] =>
          let F := fresh "Hspl" in
          known_or_cases H (build_SPL d n) ltac:(destruct (build_SPL d n) eqn:F)
      | context [entry_get ?e ?k ?d] =>
          match goal with
          | F : List.filter isinstance_dict _ = e :: _ |- _ =>
              let fields := fresh "fields" in
              destruct (filter_head_dict _ _ _ F) as (fields & ->)
          end
      end ].


Ltac run_cases H :=
  repeat run_step H;
  try (injection H as <- <-).

Lemma dict_subseq_filter entries :
  dict_subseq entries (List.filter isinstance_dict entries).
Proof.
  induction entries as [|[fields | kind text] entries IH]; simpl;
    constructor; assumption.
Qed.

Lemma dict_subseq_unique entries rows :
  dict_subseq entries rows -> rows = List.filter isinstance_dict entries.
Proof. induction 1; simpl; congruence. Qed.

Lemma check_is_not_backup name backup :
  check_query name <> backup_query name backup.
Proof.
  unfold check_query, backup_query. intros H.
  apply append_inv_head, append_inv_head in H. discriminate.
Qed.

(** C7. Of the entries the result decoder yields, [oneshot_search] returns
    those that are dictionaries, in their order, and no others; the entries
    it drops leave no trace: the call returns normally and prints its two
    usual lines, the second with the number of rows returned. *)
Theorem oneshot_search_returns_the_dict_entries :
  forall spl_query (w : @World Remote) entries remote',
    serve (remote w) spl_query = (Results entries, remote') ->
    exists rows,
      oneshot_search serve spl_query w
      = (Ret rows,
         mkWorld remote' (clock w) (files w)
                 (stdout w ++ [executing spl_query; executed (length rows)])
                 (log w ++ [EQuery spl_query (Results entries)]))
      /\ dict_subseq entries rows
      /\ (forall rows', dict_subseq entries rows' -> rows' = rows).
Proof.
  intros spl_query w entries remote' Hserve.
  exists (List.filter isinstance_dict entries).
  rewrite oneshot_search_run, Hserve. split; [reflexivity |].
  split; [apply dict_subseq_filter | apply dict_subseq_unique].
Qed.

(** C3. [backup_lookup_if_exists] submits the write query exactly when the
    existence check returned a row.  With no row it submits the check and
    nothing else, and when the check was answered it returns normally. *)
Theorem backup_write_iff_check_has_rows :
  forall rem dt fs lookup_name,
    let run := backup_lookup_if_exists serve lookup_name (boot rem dt fs) in
    let answer := fst (serve rem (check_query lookup_name)) in
    ((exists backup,
        In (backup_query lookup_name backup) (queries (log (snd run))))
     <-> rows_of answer <> [])
    /\ (rows_of answer <> [] ->
        exists backup,
          queries (log (snd run))
          = [check_query lookup_name; backup_query lookup_name backup])
    /\ (rows_of answer = [] ->
        queries (log (snd run)) = [check_query lookup_name]
        /\ forall entries, answer = Results entries -> fst run = Ret tt).
Proof.
  intros rem dt fs lookup_name run answer. subst answer.
  destruct run as [out w'] eqn:H. subst run. run_cases H; simpl.
  all: repeat split; try congruence; try (intros; discriminate);
    try (intros _; eexists; reflexivity);
    try (intros _; eexists; right; left; reflexivity).
  all: intros (backup & [Hq | []]); now apply check_is_not_backup in Hq.
Qed.

(** C1. For an identifier with a [.], the backup is named by what comes
    before the first [.], then [_backup_], the clock reading as
    year-month-day-hour-minute-second digits, and [.csv]; that is the
    lookup the write query of [backup_lookup_if_exists] names. *)
Theorem backup_name_of_dotted_identifier :
  forall base rest dt,
    PyStr.mem "." base = false ->
    let lookup_name := base +:+ "." +:+ rest in
    let backup := base +:+ "_backup_" +:+ timestamp_digits dt +:+ ".csv" in
    backup_lookup_name lookup_name (strftime "%Y%m%d%H%M%S" dt) = inr backup
    /\ forall rem fs,
        rows_of (fst (serve rem (check_query lookup_name))) <> [] ->
        queries (log (snd (backup_lookup_if_exists serve lookup_name
                             (boot rem dt fs))))
        = [check_query lookup_name; backup_query lookup_name backup].
Proof.
  intros base rest dt Hm lookup_name backup.
  assert (Hb : backup_lookup_name lookup_name (strftime "%Y%m%d%H%M%S" dt)
               = inr backup).
  { subst lookup_name backup. rewrite <- strftime_stamp.
    now apply backup_lookup_name_before. }
  split; [exact Hb |].
  intros rem fs Hrows.
  destruct (backup_lookup_if_exists _ _ _) as [out w'] eqn:H.
  run_cases H; simpl in *; rewrite ?Hserve in Hrows; simpl in Hrows;
    try congruence.
  all: rewrite Hb in Hname; injection Hname as <-; reflexivity.
Qed.

(** C9. Whatever the identifier, the backup name is a part of it without
    [.], then [_backup_], the timestamp and [.csv]: the part is the whole
    identifier when it has no [.], and otherwise what comes before its
    first [.], so that the extension of the identifier is not kept. *)
Theorem backup_name_always_ends_in_csv :
  forall lookup_name timestamp,
    exists base,
      backup_lookup_name lookup_name timestamp
      = inr (base +:+ "_backup_" +:+ timestamp +:+ ".csv")
      /\ PyStr.mem "." base = false
      /\ (lookup_name = base \/ exists rest, lookup_name = base +:+ "." +:+ rest)
      /\ (PyStr.mem "." lookup_name = false -> base = lookup_name).
Proof.
  intros lookup_name timestamp.
  destruct (backup_lookup_name_total lookup_name timestamp)
    as (base & Hb & Hm & Hs).
  exists base. repeat split; try assumption.
  intros Hno. rewrite (backup_lookup_name_without _ _ Hno) in Hb.
  injection Hb as Hb. now apply append_inv_tail in Hb.
Qed.

(** ** Whole runs *)

(** C2. A run in which a query meets an authentication failure prints the
    diagnostic last and ends with exit status 1; the failing query is the
    last thing the run did, and every step before it had succeeded.  When
    it is the existence check that fails, the check is all that was
    submitted: no backup write, no generation, no verification. *)
Theorem authentication_failure_is_fatal :
  forall rem dt fs source target spl_query,
    let run := main serve source target (boot rem dt fs) in
    In (EQuery spl_query AuthFailed) (log (snd run)) ->
    fst run = Raise (SystemExit 1)
    /\ exit_status (fst run) = 1
    /\ last (stdout (snd run)) = Some auth_diagnostic
    /\ last (log (snd run)) = Some (EQuery spl_query AuthFailed)
    /\ Forall succeeded (removelast (log (snd run)))
    /\ (fst (serve rem (check_query target)) = AuthFailed ->
        log (snd run) = [EQuery (check_query target) AuthFailed]).
Proof.
  intros rem dt fs source target spl_query run Hin.
  destruct run as [out w'] eqn:H. subst run. run_cases H.
  all: simpl in Hin |- *.
  all: decompose [or] Hin; try congruence; try contradiction.
  all: match goal with
       | E : EQuery _ _ = EQuery _ _ |- _ => injection E as <-
       end.
  all: repeat split; try reflexivity; try (intros; discriminate);
    repeat constructor.
Qed.


(** C8. For a file with a header and no data row, [csv_to_dict] returns a
    table whose columns are all empty; provided the search head answers
    every query, [generate_lookup] still submits the generation query,
    built from empty joined values, then the verification query, and
    returns normally after reporting the count that the verification
    answered: zero when that count is zero. *)
Theorem header_only_file_is_still_imported :
  forall rem dt fs path target names,
    fs path = Some [names] ->
    (forall r q, exists entries r', serve r q = (Results entries, r')) ->
    let run := generate_lookup serve path target (boot rem dt fs) in
    exists T spl answer,
      fst (csv_to_dict path (boot rem dt fs)) = Ret T
      /\ Forall (fun column => snd column = []) T
      /\ T = cells_of (empty_columns (PyDict.keys T))
      /\ (NoDup names -> PyDict.keys T = names)
      /\ build_SPL T target = inr spl
      /\ spl = PyStr.join LF (parts (empty_columns (PyDict.keys T)))
               +:+ "| fields - _time | outputlookup " +:+ target
      /\ fst run = Ret tt
      /\ (exists before,
            queries (log (snd run)) = before ++ [spl; verify_query target])
      /\ last (log (snd run))
         = Some (EQuery (verify_query target) (Results answer))
      /\ (forall fields more,
            rows_of (Results answer) = Row fields :: more ->
            last (stdout (snd run))
            = Some (count_report target
                      (match PyDict.get "count" fields with
                       | Some count => count
                       | None => "0"
                       end)))
      /\ (forall fields more,
            rows_of (Results answer) = Row fields :: more ->
            PyDict.get "count" fields = Some "0" ->
            last (stdout (snd run))
            = Some ("Lookup '" +:+ target +:+ "' contains 0 rows.")).
Proof.
  intros rem dt fs path target names Hfile Hnever run.
  destruct (csv_columns_header_only names)
    as (T & Hcsv & Horder & Hempty & HT).
  pose proof (build_SPL_cells (empty_columns (PyDict.keys T)) target) as Hspl.
  rewrite <- HT in Hspl.
  assert (Hload : fst (csv_to_dict path (boot rem dt fs)) = Ret T)
    by (now rewrite (csv_to_dict_run path _ [names] T)).
  destruct run as [out w'] eqn:H. subst run. run_cases H.
  all: try match goal with
           | Hs : serve ?r ?q = (AuthFailed, _) |- _ =>
               destruct (Hnever r q) as (? & ? & Hok); congruence
           | Hs : serve ?r ?q = (Failed _, _) |- _ =>
               destruct (Hnever r q) as (? & ? & Hok); congruence
           end.
  all: simpl.
  all: exists T; eexists; eexists.
  all: split; [exact Hload |].
  all: split; [exact Hempty |].
  all: split; [exact HT |].
  all: split; [exact Horder |].
  all: split; [exact Hspl |].
  all: split; [reflexivity |].
  all: split; [reflexivity |].
  all: split;
    [first [exists [check_query target]; reflexivity
           | eexists [_; _]; reflexivity] |].
  all: split; [reflexivity |].
  all: match goal with
       | |- (forall f m, List.filter isinstance_dict ?es = _ -> _) /\ _ =>
           match goal with
           | Hr : List.filter isinstance_dict es = _ |- _ =>
               split; intros fields' more Hfilter; rewrite Hr in Hfilter
           end
       end;
    try discriminate; injection Hfilter as <- <-.
  all: try match goal with
           | Hc : PyDict.get "count" _ = _ |- _ => rewrite Hc
           end;
    try reflexivity.
  all: intros [= ->] || intros [=]; reflexivity.
Qed.

(** ** Runs that stop before the lookup is written *)

Ltac answered Hnever :=
  match goal with
  | Hs : serve ?r ?q = (AuthFailed, _) |- _ =>
      destruct (Hnever r q) as (? & ? & ?); congruence
  | Hs : serve ?r ?q = (Failed _, _) |- _ =>
      destruct (Hnever r q) as (? & ? & ?); congruence
  end.

(** When the file does not open, does not load, or gives a table the
    query cannot be built from, the run stops there with that exception:
    the check and the backup write are all it has submitted. *)
Lemma load_failure_stops rem dt fs path target e found :
  (fs path = None /\ e = OSError path /\ found = false)
  \/ (exists records,
        fs path = Some records
        /\ found = true
        /\ (csv_columns (DictReader.read records) = inl e
            \/ exists T, csv_columns (DictReader.read records) = inr T
                         /\ build_SPL T target = inl e)) ->
  let run := generate_lookup serve path target (boot rem dt fs) in
  stopped_before_generation target (queries (log (snd run)))
  /\ fst run <> Ret tt
  /\ ((forall r q, exists entries r', serve r q = (Results entries, r')) ->
      fst run = Raise e
      /\ last (log (snd run)) = Some (EOpen path found)).
Proof.
  intros Hload run. destruct run as [out w'] eqn:H. subst run.
  destruct Hload as [(Hfile & -> & ->)
                    | (records & Hfile & -> & [Hcsv | (T & Hcsv & Hspl)])];
    run_cases H; simpl.
  all: split; [first [left; reflexivity | right; eexists; reflexivity] |].
  all: split; [discriminate |].
  all: intros Hnever; try answered Hnever; split; reflexivity.
Qed.

(** X6. When the source file cannot be opened, [generate_lookup] has
    already run the existence check and, exactly when the check answered a
    row, written the backup under the backup name of the lookup; it
    submits nothing more, and the error of [open] is what the run ends
    with. *)
Theorem missing_file_stops_before_generation :
  forall rem dt fs path target,
    fs path = None ->
    let run := generate_lookup serve path target (boot rem dt fs) in
    let answer := fst (serve rem (check_query target)) in
    (rows_of answer = [] ->
     queries (log (snd run)) = [check_query target])
    /\ (rows_of answer <> [] ->
        exists backup,
          backup_lookup_name target (strftime "%Y%m%d%H%M%S" dt) = inr backup
          /\ queries (log (snd run))
             = [check_query target; backup_query target backup])
    /\ stopped_before_generation target (queries (log (snd run)))
    /\ fst run <> Ret tt
    /\ ((forall r q, exists entries r', serve r q = (Results entries, r')) ->
        fst run = Raise (OSError path)
        /\ last (log (snd run)) = Some (EOpen path false)).
Proof.
  intros rem dt fs path target Hfile run answer.
  assert (Hwrite :
            (rows_of answer = [] ->
             queries (log (snd run)) = [check_query target])
            /\ (rows_of answer <> [] ->
                exists backup,
                  backup_lookup_name target (strftime "%Y%m%d%H%M%S" dt)
                  = inr backup
                  /\ queries (log (snd run))
                     = [check_query target; backup_query target backup])).
  { subst answer. destruct run as [out w'] eqn:H. subst run. run_cases H.
    all: simpl.
    all: repeat match goal with
           | Hr : List.filter isinstance_dict ?es = _
             |- context [List.filter isinstance_dict ?es] => rewrite Hr
           end.
    all: split.
    all: lazymatch goal with
         | |- [] = [] -> _ => intros _; reflexivity
         | |- _ :: _ = [] -> _ => intros [=]
         | |- [] <> [] -> _ => intros Hne; now destruct Hne
         | |- _ :: _ <> [] -> _ =>
             intros _; eexists; split; [eassumption | reflexivity]
         end. }
  destruct Hwrite as [Hnone Hsome].
  split; [exact Hnone |]. split; [exact Hsome |].
  apply load_failure_stops. left. auto.
Qed.

(** X7. A file without any record has no field names: [csv_to_dict]
    raises [TypeError] on it, and the run stops after the backup without
    writing the lookup. *)
Theorem empty_file_stops_before_generation :
  forall rem dt fs path target,
    fs path = Some [] ->
    let run := generate_lookup serve path target (boot rem dt fs) in
    fst (csv_to_dict path (boot rem dt fs)) = Raise TypeError
    /\ stopped_before_generation target (queries (log (snd run)))
    /\ fst run <> Ret tt
    /\ ((forall r q, exists entries r', serve r q = (Results entries, r')) ->
        fst run = Raise TypeError
        /\ last (log (snd run)) = Some (EOpen path true)).
Proof.
  intros rem dt fs path target Hfile. split.
  - unfold csv_to_dict, bind, print, open_csv, record, lift, boot. simpl.
    rewrite Hfile, csv_columns_no_record. reflexivity.
  - apply load_failure_stops. right. exists []. split; [assumption |].
    split; [reflexivity |]. left. apply csv_columns_no_record.
Qed.


(** ** Failures of the search *)

(** X9. A run of [generate_lookup] ends with [SystemExit] exactly when a
    query met an authentication failure, and prints the diagnostic exactly
    then; any other failure of a query is what the run raises, unchanged
    and without diagnostic, and is the last thing the run did. *)
Theorem only_authentication_failures_exit :
  forall rem dt fs source target,
    let run := generate_lookup serve source target (boot rem dt fs) in
    let refused :=
      exists spl_query, In (EQuery spl_query AuthFailed) (log (snd run)) in
    (refused <-> exists code, fst run = Raise (SystemExit code))
    /\ (refused <-> In auth_diagnostic (stdout (snd run)))
    /\ (forall spl_query msg,
          In (EQuery spl_query (Failed msg)) (log (snd run)) ->
          fst run = Raise (HTTPError msg)
          /\ last (log (snd run)) = Some (EQuery spl_query (Failed msg))).
Proof.
  intros rem dt fs source target run refused. subst refused.
  destruct run as [out w'] eqn:H. subst run. run_cases H.
  all: repeat match goal with
         | E : csv_columns _ = inl _ |- _ =>
             apply csv_columns_errors in E as [-> | ->]
         | E : build_SPL _ _ = inl _ |- _ =>
             apply build_SPL_errors in E as ->
         end.
  all: simpl.
  all: split; [split | split; [split |]].
  all: lazymatch goal with
       | |- (exists code, _ = Raise (SystemExit code)) -> _ =>
           intros (code & Hcode);
           first [ discriminate Hcode
                 | solve [eexists; repeat (first [left; reflexivity | right])] ]
       | |- (exists q, _) -> _ =>
           intros (q & Hin);
           first [ solve [exists 1; reflexivity]
                 | solve [repeat (first [left; reflexivity | right])]
                 | decompose [or] Hin; first [contradiction | congruence] ]
       | |- forall q msg, _ =>
           intros ? ? Hin; decompose [or] Hin;
           first [ contradiction
                 | match goal with
                   | E : EQuery _ (Failed _) = EQuery _ (Failed _) |- _ =>
                       injection E as <- <-; split; reflexivity
                   end
                 | congruence ]
       | |- _ -> _ =>
           intros Hline;
           first [ solve [eexists; repeat (first [left; reflexivity | right])]
                 | decompose [or] Hline;
                   first [ contradiction
                         | match goal with
                           | E : _ = auth_diagnostic |- _ =>
                               apply first_char_line in E; vm_compute in E;
                               discriminate E
                           end ] ]
       end.
Qed.

(** ** Runs that write the lookup *)

(** X10. For a rectangular file with distinct column names and a search
    head that answers, the run returns normally and submits the check,
    the backup write if there is one, then the query composed from the
    columns of the file, then the verification, and nothing else. *)
Theorem rectangular_file_is_imported :
  forall rem dt fs path target names rows,
    fs path = Some (names :: rows) ->
    NoDup names ->
    rectangular names rows ->
    (forall r q, exists entries r', serve r q = (Results entries, r')) ->
    let run := generate_lookup serve path target (boot rem dt fs) in
    let SPL := PyStr.join LF (parts (string_columns names rows))
               +:+ "| fields - _time | outputlookup " +:+ target in
    fst run = Ret tt
    /\ (queries (log (snd run)) = [check_query target; SPL; verify_query target]
        \/ exists backup,
             queries (log (snd run))
             = [check_query target; backup_query target backup; SPL;
                verify_query target]).
Proof.
  intros rem dt fs path target names rows Hfile Hnd Hrect Hnever run SPL.
  pose proof (csv_columns_transposed names rows Hnd) as Hcsv.
  rewrite (transposed_rectangular names rows Hrect) in Hcsv.
  pose proof (build_SPL_cells (string_columns names rows) target) as Hspl.
  fold SPL in Hspl. clearbody SPL.
  remember (cells_of (string_columns names rows)) as T eqn:HT. clear HT.
  destruct run as [out w'] eqn:H. subst run. run_cases H.
  all: try answered Hnever.
  all: simpl; split; [reflexivity |].
  all: first [left; reflexivity | right; eexists; reflexivity].
Qed.

(** X11. A run that returns normally ended with the verification, and
    what it printed last is the answer of the search head: the count field
    of the first row as it is, [0] when the row has no such field, and no
    count at all when the answer has no row. *)
Theorem reported_count_is_the_answer :
  forall rem dt fs path target,
    let run := generate_lookup serve path target (boot rem dt fs) in
    fst run = Ret tt ->
    exists answer,
      last (log (snd run))
      = Some (EQuery (verify_query target) (Results answer))
      /\ (rows_of (Results answer) = [] ->
          last (stdout (snd run)) = Some (executed 0))
      /\ (forall fields more,
            rows_of (Results answer) = Row fields :: more ->
            last (stdout (snd run))
            = Some (count_report target
                      (default "0" (PyDict.get "count" fields)))).
Proof.
  intros rem dt fs path target run Hout.
  destruct run as [out w'] eqn:H. subst run. run_cases H.
  all: simpl in Hout; try discriminate Hout.
  all: simpl; eexists; split; [reflexivity |].
  all: simpl;
    match goal with
    | Hr : List.filter isinstance_dict ?es = _
      |- (List.filter isinstance_dict ?es = _ -> _) /\ _ => rewrite Hr
    end.
  all: split; [first [reflexivity | discriminate] |].
  all: intros fields' more [=]; subst;
    try match goal with
        | Hc : PyDict.get "count" _ = _ |- _ => rewrite Hc
        end;
    reflexivity.
Qed.

Lemma backup_query_inv name backup backup' :
  backup_query name backup = backup_query name backup' -> backup = backup'.
Proof.
  unfold backup_query. intros H.
  now apply append_inv_head, append_inv_head, append_inv_head in H.
Qed.

Lemma backup_name_differs lookup_name timestamp backup :
  backup_lookup_name lookup_name timestamp = inr backup ->
  backup <> lookup_name.
Proof.
  destruct (backup_lookup_name_total lookup_name timestamp)
    as (base & -> & _ & Hs).
  intros [= <-] Heq. destruct Hs as [-> | (rest & ->)].
  - rewrite <- (append_nil_r base) in Heq at 2.
    apply append_inv_head in Heq. discriminate.
  - apply append_inv_head in Heq. discriminate.
Qed.

(** X12. The backup is never written over the lookup it copies: the
    name a write query of [backup_lookup_if_exists] writes to is the
    backup name of the lookup at the clock reading, and differs from the
    lookup's own name. *)
Theorem backup_never_targets_the_lookup :
  forall rem dt fs lookup_name backup,
    In (backup_query lookup_name backup)
       (queries (log (snd (backup_lookup_if_exists serve lookup_name
                             (boot rem dt fs))))) ->
    backup_lookup_name lookup_name (strftime "%Y%m%d%H%M%S" dt) = inr backup
    /\ backup <> lookup_name.
Proof.
  intros rem dt fs lookup_name backup Hin.
  destruct (backup_lookup_if_exists _ _ _) as [out w'] eqn:H.
  run_cases H; simpl in Hin; decompose [or] Hin; try contradiction.
  all: try match goal with
           | E : check_query _ = backup_query _ _ |- _ =>
               now apply check_is_not_backup in E
           end.
  all: match goal with
       | E : backup_query _ _ = backup_query _ _ |- _ =>
           apply backup_query_inv in E; subst
       end.
  all: split; [assumption | eapply backup_name_differs; eassumption].
Qed.

End Runs.

(** ** Backups made at different seconds *)

(** Below its bound, a number padded to [width] digits has that many
    characters and is read back from them. *)
Lemma zfill_checked width bound :
  forallb (fun n => Nat.eqb (String.length (PyStr.zfill width n)) width
                    && Nat.eqb (digits_value (PyStr.zfill width n)) n)
          (seq 0 bound) = true ->
  forall n, n < bound ->
    String.length (PyStr.zfill width n) = width
    /\ digits_value (PyStr.zfill width n) = n.
Proof.
  intros Hall n Hn.
  assert (Hin : In n (seq 0 bound)) by (apply in_seq; lia).
  apply (proj1 (forallb_forall _ _) Hall), andb_prop in Hin as [Hlen Hval].
  split; now apply Nat.eqb_eq.
Qed.

Lemma zfill_two n :
  n < 100 ->
  String.length (PyStr.zfill 2 n) = 2 /\ digits_value (PyStr.zfill 2 n) = n.
Proof. apply zfill_checked. vm_compute. reflexivity. Qed.

Lemma zfill_four n :
  n < 100 * 100 ->
  String.length (PyStr.zfill 4 n) = 4 /\ digits_value (PyStr.zfill 4 n) = n.
Proof. apply zfill_checked. vm_compute. reflexivity. Qed.

(** Two strings that start with parts of the same length are equal part
    by part. *)
Lemma append_split (a b x y : string) :
  String.length a = String.length b -> a +:+ x = b +:+ y -> a = b /\ x = y.
Proof.
  intros Hlen Heq. pose proof (append_same_length a b x y Hlen Heq) as ->.
  split; [reflexivity | now apply append_inv_head in Heq].
Qed.

Lemma timestamp_digits_inj dt dt' :
  calendar_reading dt -> calendar_reading dt' ->
  timestamp_digits dt = timestamp_digits dt' -> dt = dt'.
Proof.
  intros ([_ Hy] & Hm & Hd & Hh & Hmi & Hs) ([_ Hy'] & Hm' & Hd' & Hh' & Hmi' & Hs').
  unfold timestamp_digits. intros H.
  destruct (zfill_four _ Hy) as [Ly Vy], (zfill_four _ Hy') as [Ly' Vy'].
  destruct (zfill_two (month dt)) as [Lm Vm]; [lia |].
  destruct (zfill_two (month dt')) as [Lm' Vm']; [lia |].
  destruct (zfill_two (day dt)) as [Ld Vd]; [lia |].
  destruct (zfill_two (day dt')) as [Ld' Vd']; [lia |].
  destruct (zfill_two (hour dt)) as [Lh Vh]; [lia |].
  destruct (zfill_two (hour dt')) as [Lh' Vh']; [lia |].
  destruct (zfill_two (minute dt)) as [Lmi Vmi]; [lia |].
  destruct (zfill_two (minute dt')) as [Lmi' Vmi']; [lia |].
  destruct (zfill_two (second dt)) as [_ Vs]; [lia |].
  destruct (zfill_two (second dt')) as [_ Vs']; [lia |].
  apply append_split in H as [Ey H]; [| congruence].
  apply append_split in H as [Em H]; [| congruence].
  apply append_split in H as [Ed H]; [| congruence].
  apply append_split in H as [Eh H]; [| congruence].
  apply append_split in H as [Emi Es]; [| congruence].
  rewrite Ey in Vy. rewrite Em in Vm. rewrite Ed in Vd. rewrite Eh in Vh.
  rewrite Emi in Vmi. rewrite Es in Vs.
  destruct dt, dt'. simpl in *. congruence.
Qed.

(** X13. Two backups of one lookup made at different calendar readings
    of the clock have different names: the name tells the second. *)
Theorem backup_names_differ_by_second :
  forall lookup_name dt dt',
    calendar_reading dt ->
    calendar_reading dt' ->
    backup_lookup_name lookup_name (strftime "%Y%m%d%H%M%S" dt)
    = backup_lookup_name lookup_name (strftime "%Y%m%d%H%M%S" dt') ->
    dt = dt'.
Proof.
  intros lookup_name dt dt' Hdt Hdt'. rewrite !strftime_stamp.
  destruct (backup_lookup_name_total lookup_name "") as (base0 & Hbase0 & _).
  unfold backup_lookup_name in *.
  destruct (split_head lookup_name) as [e | base]; [discriminate Hbase0 |].
  cbn [res_bind]. intros [= H].
  apply append_inv_head in H. apply (append_inv_head "_backup_") in H.
  apply append_inv_tail in H. now apply timestamp_digits_inj.
Qed.

(** ** The theorems at sample inputs *)

Lemma backup_name_of_attacks_lookup :
  PyStr.mem "." "attacks_lookup" = false
  /\ backup_lookup_name "attacks_lookup.csv" (strftime "%Y%m%d%H%M%S" reading)
     = inr "attacks_lookup_backup_20240102030405.csv"
  /\ queries (log (snd (backup_lookup_if_exists counts_zero "attacks_lookup.csv"
                          (boot tt reading sample_files))))
     = ["| inputlookup attacks_lookup.csv | head 1";
        "| inputlookup attacks_lookup.csv | outputlookup attacks_lookup_backup_20240102030405.csv"].
Proof.
  split; [reflexivity |].
  destruct (backup_name_of_dotted_identifier counts_zero
              "attacks_lookup" "csv" reading eq_refl) as [Hname Hrun].
  split; [exact Hname |].
  apply (Hrun tt sample_files). discriminate.
Defined.

Lemma expired_token_stops_the_run :
  let run := main token_expires "cyber_attacks.csv" "iocs.csv"
               (boot 1 reading sample_files) in
  let SPL := composed_SPL ("ip", ["a"; "b"]) [("tag", ["x"; "y"])] "iocs.csv" in
  In (EQuery SPL AuthFailed) (log (snd run))
  /\ fst run = Raise (SystemExit 1)
  /\ exit_status (fst run) = 1
  /\ last (stdout (snd run)) = Some auth_diagnostic
  /\ last (log (snd run)) = Some (EQuery SPL AuthFailed).
Proof.
  intros run SPL.
  assert (Hin : In (EQuery SPL AuthFailed) (log (snd run)))
    by (vm_compute; right; right; left; reflexivity).
  split; [exact Hin |].
  destruct (authentication_failure_is_fatal token_expires 1 reading
              sample_files "cyber_attacks.csv" "iocs.csv" SPL Hin)
    as (Hout & Hstatus & Hline & Hlast & _).
  repeat split; assumption.
Defined.

Lemma backup_written_for_a_lookup_with_rows :
  rows_of (fst (counts_zero tt (check_query "iocs.csv"))) <> []
  /\ exists backup,
      queries (log (snd (backup_lookup_if_exists counts_zero "iocs.csv"
                           (boot tt reading sample_files))))
      = [check_query "iocs.csv"; backup_query "iocs.csv" backup].
Proof.
  split; [discriminate |].
  apply (backup_write_iff_check_has_rows counts_zero tt reading sample_files
           "iocs.csv").
  discriminate.
Defined.

Lemma query_of_two_columns :
  build_SPL [("ip", [CStr "a"; CStr "b"]); ("tag", [CStr "x"; CStr "y"])] "iocs.csv"
  = inr (composed_SPL ("ip", ["a"; "b"]) [("tag", ["x"; "y"])] "iocs.csv").
Proof.
  exact (build_SPL_composes_the_fragments
           ("ip", ["a"; "b"]) [("tag", ["x"; "y"])] "iocs.csv").
Defined.

Lemma two_by_two_table :
  sample_files "cyber_attacks.csv" = Some [["ip"; "tag"]; ["a"; "x"]; ["b"; "y"]]
  /\ NoDup ["ip"; "tag"]
  /\ rectangular ["ip"; "tag"] [["a"; "x"]; ["b"; "y"]]
  /\ exists T,
      fst (csv_to_dict "cyber_attacks.csv" (boot tt reading sample_files)) = Ret T
      /\ length T = 2
      /\ PyDict.keys T = ["ip"; "tag"]
      /\ Forall (fun column =>
                  exists strs : list string,
                    snd column = map CStr strs /\ length strs = 2) T.
Proof.
  assert (Hnd : NoDup ["ip"; "tag"]) by (apply NoDup_ListNoDup; repeat constructor; simpl; intuition discriminate).
  assert (Hrect : rectangular ["ip"; "tag"] [["a"; "x"]; ["b"; "y"]])
    by (repeat constructor).
  split; [reflexivity |]. split; [exact Hnd |]. split; [exact Hrect |].
  exact (csv_to_dict_rectangular_table (boot tt reading sample_files)
           "cyber_attacks.csv" ["ip"; "tag"] [["a"; "x"]; ["b"; "y"]]
           eq_refl Hnd Hrect).
Defined.


Lemma rows_of_a_mixed_answer :
  answers_mixed tt "| inputlookup iocs.csv" = (Results mixed_entries, tt)
  /\ exists rows,
      fst (oneshot_search answers_mixed "| inputlookup iocs.csv"
             (boot tt reading sample_files)) = Ret rows
      /\ dict_subseq mixed_entries rows.
Proof.
  split; [reflexivity |].
  destruct (oneshot_search_returns_the_dict_entries answers_mixed
              "| inputlookup iocs.csv" (boot tt reading sample_files)
              mixed_entries tt eq_refl)
    as (rows & Hrun & Hsub & _).
  exists rows. split; [now rewrite Hrun | exact Hsub].
Defined.

Lemma header_only_import :
  let run := generate_lookup counts_zero "header_only.csv" "iocs.csv"
               (boot tt reading sample_files) in
  sample_files "header_only.csv" = Some [["ip"; "tag"]]
  /\ (forall r q, exists entries r', counts_zero r q = (Results entries, r'))
  /\ fst run = Ret tt
  /\ last (stdout (snd run)) = Some "Lookup 'iocs.csv' contains 0 rows.".
Proof.
  intros run.
  assert (Hnever : forall r q, exists entries r',
                     counts_zero r q = (Results entries, r'))
    by (intros r q; eexists; eexists; reflexivity).
  split; [reflexivity |]. split; [exact Hnever |].
  destruct (header_only_file_is_still_imported counts_zero tt reading
              sample_files "header_only.csv" "iocs.csv" ["ip"; "tag"]
              eq_refl Hnever)
    as (T & spl & answer & _ & _ & _ & _ & _ & _ & Hout & _ & Hlast & _ & Hzero).
  split; [exact Hout |].
  vm_compute in Hlast. injection Hlast as <-.
  exact (Hzero [("count", "0")] [] eq_refl eq_refl).
Defined.

Lemma backup_name_of_a_tsv_identifier :
  exists base,
    backup_lookup_name "data.tsv" "20240102030405"
    = inr (base +:+ "_backup_" +:+ "20240102030405" +:+ ".csv")
    /\ PyStr.mem "." base = false
    /\ ("data.tsv" = base \/ exists rest, "data.tsv" = base +:+ "." +:+ rest)
    /\ (PyStr.mem "." "data.tsv" = false -> base = "data.tsv").
Proof.
  exact (backup_name_always_ends_in_csv "data.tsv" "20240102030405").
Defined.

Lemma name_repeated_in_two_rows :
  sample_files "repeated.csv"
  = Some [["ip"; "tag"; "ip"]; ["a"; "x"; "b"]; ["c"; "y"; "d"]]
  /\ Forall (fun row : list string => row <> [])
            [["a"; "x"; "b"]; ["c"; "y"; "d"]]
  /\ occurrences "ip" ["ip"; "tag"; "ip"] = 2
  /\ exists T,
      fst (csv_to_dict "repeated.csv" (boot tt reading sample_files)) = Ret T
      /\ (exists column,
            PyDict.get "ip" T = Some column /\ length column = 2 * 2)
      /\ length T < 3
      /\ ~ equal_row_count 2 T.
Proof.
  assert (Hrect : Forall (fun row : list string => row <> [])
                    [["a"; "x"; "b"]; ["c"; "y"; "d"]])
    by (repeat (constructor; [discriminate |]); constructor).
  split; [reflexivity |]. split; [exact Hrect |]. split; [reflexivity |].
  destruct (csv_to_dict_repeated_name (boot tt reading sample_files)
              "repeated.csv" ["ip"; "tag"; "ip"]
              [["a"; "x"; "b"]; ["c"; "y"; "d"]] "ip" 2
              eq_refl Hrect eq_refl (le_n 2))
    as (T & Hrun & _ & _ & Hcolumn & _ & Hfewer & Hviolated).
  exists T. repeat split; try assumption.
  apply Hviolated. simpl. lia.
Defined.

(** A header that repeats its one name, without data rows: the table has
    one column, empty, and every column has as many values as there are
    data rows. *)
Lemma repeated_header_without_rows_keeps_row_count :
  occurrences "ip" ["ip"; "ip"] = 2
  /\ sample_files "repeated_header_only.csv" = Some [["ip"; "ip"]]
  /\ exists T,
      fst (csv_to_dict "repeated_header_only.csv"
             (boot tt reading sample_files)) = Ret T
      /\ T = [("ip", [])]
      /\ equal_row_count 0 T.
Proof.
  split; [reflexivity |]. split; [reflexivity |].
  exists [("ip", [])]. split; [reflexivity |]. split; [reflexivity |].
  repeat constructor.
Qed.

Example fragment_of_an_empty_column :
  column_fragment ("ip", []) = fragment "ip" ""
  /\ parts (empty_columns ["ip"; "tag"])
     = [fragment "ip" ""; "| appendcols [" +:+ fragment "tag" "" +:+ "]"].
Proof. split; reflexivity. Qed.

Example backup_names_drop_the_extension :
  backup_lookup_name "mylookup" "20240102030405"
  = inr "mylookup_backup_20240102030405.csv"
  /\ backup_lookup_name "data.tsv" "20240102030405"
     = inr "data_backup_20240102030405.csv"
  /\ backup_lookup_name "archive.2023.csv" "20240102030405"
     = inr "archive_backup_20240102030405.csv".
Proof. repeat split. Qed.

Example repeated_name_table :
  fst (csv_to_dict "repeated.csv" (boot tt reading sample_files))
  = Ret [("ip", [CStr "b"; CStr "b"; CStr "d"; CStr "d"]);
         ("tag", [CStr "x"; CStr "y"])].
Proof. reflexivity. Qed.

Example refused_token_first_query :
  let run := main refuses_token "cyber_attacks.csv" "iocs.csv"
               (boot tt reading sample_files) in
  fst run = Raise (SystemExit 1)
  /\ log (snd run) = [EQuery "| inputlookup iocs.csv | head 1" AuthFailed]
  /\ stdout (snd run)
     = ["Checking if lookup 'iocs.csv' contains data...";
        "Executing search query: | inputlookup iocs.csv | head 1...";
        auth_diagnostic].
Proof. repeat split. Qed.

Example nothing_to_back_up :
  queries (log (snd (backup_lookup_if_exists holds_nothing "iocs.csv"
                       (boot tt reading sample_files))))
  = ["| inputlookup iocs.csv | head 1"].
Proof. reflexivity. Qed.

(** ** The further theorems at sample inputs *)

Lemma ragged_file_by_columns :
  ragged_files "ragged.csv" = Some [["ip"; "tag"]; ["a"; "x"; "extra"]; ["b"]]
  /\ NoDup ["ip"; "tag"]
  /\ fst (csv_to_dict "ragged.csv" (boot tt reading ragged_files))
     = Ret [("ip", [CStr "a"; CStr "b"]); ("tag", [CStr "x"; CNone])].
Proof.
  assert (Hnd : NoDup ["ip"; "tag"])
    by (apply NoDup_ListNoDup; repeat constructor; simpl; intuition discriminate).
  split; [reflexivity |]. split; [exact Hnd |].
  exact (csv_to_dict_transposes (boot tt reading ragged_files) "ragged.csv"
           ["ip"; "tag"] [["a"; "x"; "extra"]; ["b"]] eq_refl Hnd).
Defined.

Lemma last_ip_column_wins :
  sample_files "repeated.csv"
  = Some [["ip"; "tag"; "ip"]; ["a"; "x"; "b"]; ["c"; "y"; "d"]]
  /\ ["ip"; "tag"; "ip"] !! 2 = Some "ip"
  /\ exists T,
      fst (csv_to_dict "repeated.csv" (boot tt reading sample_files)) = Ret T
      /\ PyDict.get "ip" T = Some [CStr "b"; CStr "b"; CStr "d"; CStr "d"].
Proof.
  split; [reflexivity |]. split; [reflexivity |].
  assert (Hlast : forall j, 2 < j -> ["ip"; "tag"; "ip"] !! j <> Some "ip").
  { intros j Hj. do 3 (destruct j as [|j]; [lia |]). discriminate. }
  exact (csv_to_dict_repeated_name_takes_last_column
           (boot tt reading sample_files) "repeated.csv" ["ip"; "tag"; "ip"]
           [["a"; "x"; "b"]; ["c"; "y"; "d"]] "ip" 2 eq_refl eq_refl Hlast).
Defined.

Lemma ragged_and_cut_give_one_table :
  ragged_files "ragged.csv" = Some [["ip"; "tag"]; ["a"; "x"; "extra"]; ["b"]]
  /\ ragged_files "cut.csv"
     = Some [["ip"; "tag"]; take 2 ["a"; "x"; "extra"]; take 2 ["b"]]
  /\ fst (csv_to_dict "ragged.csv" (boot tt reading ragged_files))
     = fst (csv_to_dict "cut.csv" (boot tt reading ragged_files)).
Proof.
  split; [reflexivity |]. split; [reflexivity |].
  exact (csv_to_dict_ignores_surplus_fields (boot tt reading ragged_files)
           "ragged.csv" "cut.csv" ["ip"; "tag"] [["a"; "x"; "extra"]; ["b"]]
           eq_refl eq_refl).
Defined.

Lemma table_with_a_missing_cell :
  ~ all_strings [("ip", [CStr "a"; CStr "b"]); ("tag", [CStr "x"; CNone])]
  /\ build_SPL [("ip", [CStr "a"; CStr "b"]); ("tag", [CStr "x"; CNone])]
               "iocs.csv"
     = inl TypeError.
Proof.
  assert (Hnot : ~ all_strings
                   [("ip", [CStr "a"; CStr "b"]); ("tag", [CStr "x"; CNone])]).
  { intros Hall. apply Forall_cons in Hall as [_ Hall].
    apply Forall_cons in Hall as [Htag _]. simpl in Htag.
    apply Forall_cons in Htag as [_ Htag].
    now apply Forall_cons in Htag as [Hnone _]. }
  split; [exact Hnot |].
  exact (proj2 (build_SPL_fails_only_on_missing_cells _ "iocs.csv") Hnot).
Defined.

Lemma comma_in_an_address :
  build_SPL (cells_of [("ip", ["10.0.0.1,10.0.0.2"])]) "iocs.csv"
  = build_SPL (cells_of [("ip", ["10.0.0.1"; "10.0.0.2"])]) "iocs.csv".
Proof.
  exact (build_SPL_confuses_comma_with_separator
           [] [] "ip" [] [] "10.0.0.1" "10.0.0.2" "iocs.csv").
Defined.

Lemma missing_file_after_backup :
  let run := generate_lookup counts_zero "nowhere.csv" "iocs.csv"
               (boot tt reading sample_files) in
  sample_files "nowhere.csv" = None
  /\ rows_of (fst (counts_zero tt (check_query "iocs.csv"))) <> []
  /\ queries (log (snd run))
     = [check_query "iocs.csv";
        backup_query "iocs.csv" "iocs_backup_20240102030405.csv"]
  /\ fst run = Raise (OSError "nowhere.csv").
Proof.
  intros run.
  assert (Hrows : rows_of (fst (counts_zero tt (check_query "iocs.csv"))) <> [])
    by discriminate.
  destruct (missing_file_stops_before_generation counts_zero tt reading
              sample_files "nowhere.csv" "iocs.csv" eq_refl)
    as (_ & Hwrite & _ & _ & Hout).
  destruct (Hwrite Hrows) as (backup & Hname & Hqueries).
  vm_compute in Hname. injection Hname as <-.
  split; [reflexivity |]. split; [exact Hrows |]. split; [exact Hqueries |].
  apply Hout. intros r q. eexists. eexists. reflexivity.
Defined.

Lemma empty_file_after_backup :
  let run := generate_lookup holds_nothing "empty.csv" "iocs.csv"
               (boot tt reading ragged_files) in
  ragged_files "empty.csv" = Some []
  /\ queries (log (snd run)) = [check_query "iocs.csv"]
  /\ fst run = Raise TypeError.
Proof.
  intros run.
  destruct (empty_file_stops_before_generation holds_nothing tt reading
              ragged_files "empty.csv" "iocs.csv" eq_refl)
    as (_ & _ & _ & Hout).
  split; [reflexivity |]. split; [reflexivity |].
  apply Hout. intros r q. eexists. eexists. reflexivity.
Defined.


Lemma server_error_is_no_exit :
  let run := generate_lookup breaks_down "cyber_attacks.csv" "iocs.csv"
               (boot tt reading sample_files) in
  In (EQuery (check_query "iocs.csv") (Failed "HTTP 500 Internal Server Error"))
     (log (snd run))
  /\ fst run = Raise (HTTPError "HTTP 500 Internal Server Error")
  /\ ~ In auth_diagnostic (stdout (snd run)).
Proof.
  intros run.
  assert (Hin : In (EQuery (check_query "iocs.csv")
                      (Failed "HTTP 500 Internal Server Error")) (log (snd run)))
    by (left; reflexivity).
  destruct (only_authentication_failures_exit breaks_down tt reading
              sample_files "cyber_attacks.csv" "iocs.csv")
    as (Hexit & Hline & Hother).
  split; [exact Hin |]. split; [exact (proj1 (Hother _ _ Hin)) |].
  intros Hdiag. apply Hline, Hexit in Hdiag as (code & Hcode).
  rewrite (proj1 (Hother _ _ Hin)) in Hcode. discriminate Hcode.
Defined.

Lemma two_by_two_import :
  let run := generate_lookup holds_nothing "cyber_attacks.csv" "iocs.csv"
               (boot tt reading sample_files) in
  sample_files "cyber_attacks.csv"
  = Some [["ip"; "tag"]; ["a"; "x"]; ["b"; "y"]]
  /\ fst run = Ret tt
  /\ (queries (log (snd run))
      = [check_query "iocs.csv";
         composed_SPL ("ip", ["a"; "b"]) [("tag", ["x"; "y"])] "iocs.csv";
         verify_query "iocs.csv"]
      \/ exists backup,
           queries (log (snd run))
           = [check_query "iocs.csv"; backup_query "iocs.csv" backup;
              composed_SPL ("ip", ["a"; "b"]) [("tag", ["x"; "y"])] "iocs.csv";
              verify_query "iocs.csv"]).
Proof.
  intros run.
  assert (Hnd : NoDup ["ip"; "tag"])
    by (apply NoDup_ListNoDup; repeat constructor; simpl; intuition discriminate).
  assert (Hrect : rectangular ["ip"; "tag"] [["a"; "x"]; ["b"; "y"]])
    by (repeat constructor).
  assert (Hnever : forall r q, exists entries r',
                     holds_nothing r q = (Results entries, r'))
    by (intros r q; eexists; eexists; reflexivity).
  split; [reflexivity |].
  exact (rectangular_file_is_imported holds_nothing tt reading sample_files
           "cyber_attacks.csv" "iocs.csv" ["ip"; "tag"] [["a"; "x"]; ["b"; "y"]]
           eq_refl Hnd Hrect Hnever).
Defined.

Lemma zero_is_what_was_answered :
  let run := generate_lookup counts_zero "cyber_attacks.csv" "iocs.csv"
               (boot tt reading sample_files) in
  fst run = Ret tt
  /\ last (stdout (snd run)) = Some (count_report "iocs.csv" "0").
Proof.
  intros run.
  assert (Hout : fst run = Ret tt) by reflexivity.
  split; [exact Hout |].
  destruct (reported_count_is_the_answer counts_zero tt reading sample_files
              "cyber_attacks.csv" "iocs.csv" Hout)
    as (answer & Hlast & _ & Hcount).
  vm_compute in Hlast. injection Hlast as <-.
  exact (Hcount [("count", "0")] [] eq_refl).
Defined.

Lemma backup_of_iocs_is_another_lookup :
  let backup := "iocs_backup_20240102030405.csv" in
  In (backup_query "iocs.csv" backup)
     (queries (log (snd (backup_lookup_if_exists counts_zero "iocs.csv"
                           (boot tt reading sample_files)))))
  /\ backup <> "iocs.csv".
Proof.
  intros backup.
  assert (Hin : In (backup_query "iocs.csv" backup)
                  (queries (log (snd (backup_lookup_if_exists counts_zero
                                        "iocs.csv"
                                        (boot tt reading sample_files))))))
    by (right; left; reflexivity).
  split; [exact Hin |].
  exact (proj2 (backup_never_targets_the_lookup counts_zero tt reading
                  sample_files "iocs.csv" backup Hin)).
Defined.

Lemma backups_a_second_apart :
  calendar_reading reading
  /\ calendar_reading next_reading
  /\ backup_lookup_name "iocs.csv" (strftime "%Y%m%d%H%M%S" reading)
     <> backup_lookup_name "iocs.csv" (strftime "%Y%m%d%H%M%S" next_reading).
Proof.
  assert (H1 : calendar_reading reading) by (repeat split; simpl; lia).
  assert (H2 : calendar_reading next_reading) by (repeat split; simpl; lia).
  split; [exact H1 |]. split; [exact H2 |].
  intros Heq.
  pose proof (backup_names_differ_by_second "iocs.csv" reading next_reading
                H1 H2 Heq) as Hsame.
  discriminate Hsame.
Defined.
